(** * The frame selector of the PlanetarySystemStacker

    A shallow embedding of [planetary_system_stacker/frame_selector.py]:
    the widget [FrameSelectorWidget] with its working copy of the inclusion
    flags, and the playback loop of [FramePlayer.play].

    The widget's slots run on the GUI thread and are embedded in a state and
    exception monad over the record [Widget].  The playback loop runs on a
    thread of its own; it is embedded as a step function over the same
    record, interleaved with the events of the GUI thread, among them the
    slots that the loop itself sets off. *)

From Stdlib Require Import ZArith List Bool Lia Sorted.
From stdpp Require Import base list list_numbers.
Import ListNotations.

Local Open Scope Z_scope.

(** ** Python values *)

(** The exceptions the embedded code can raise. *)
Inductive exn := IndexError | TypeError | AttributeError | OverflowError.

Inductive result (A : Type) :=
| Ok (a : A)
| Raise (e : exn).
Arguments Ok {A} a.
Arguments Raise {A} e.

(** Python's index normalisation for a sequence of length [n]: an index in
    [0, n) is taken as it is, an index in [-n, 0) counts from the end,
    anything else is out of range. *)
Definition py_index (n : nat) (i : Z) : option nat :=
  if (0 <=? i) && (i <? Z.of_nat n) then Some (Z.to_nat i)
  else if (- Z.of_nat n <=? i) && (i <? 0) then Some (Z.to_nat (Z.of_nat n + i))
  else None.

(** [l[i]] *)
Definition getitem {A} (l : list A) (i : Z) : result A :=
  match py_index (length l) i with
  | Some k => match l !! k with Some x => Ok x | None => Raise IndexError end
  | None => Raise IndexError
  end.

(** [l[i] = v], on a list mutated in place: the list after the assignment. *)
Definition setitem {A} (l : list A) (i : Z) (v : A) : result (list A) :=
  match py_index (length l) i with
  | Some k => Ok (<[k:=v]> l)
  | None => Raise IndexError
  end.

(** [o[i]] where [o] may be [None], which is not subscriptable. *)
Definition subscript {A} (o : option (list A)) (i : Z) : result A :=
  match o with
  | Some l => getitem l i
  | None => Raise TypeError
  end.

(** Truth value of an object that is [None] or a list. *)
Definition truthy {A} (o : option (list A)) : bool :=
  match o with
  | Some (_ :: _) => true
  | _ => false
  end.

(** [sum(flags)] on a sequence of booleans. *)
Definition py_sum (flags : list bool) : Z :=
  Z.of_nat (length (filter (fun b => b = true) flags)).

(** [range(n)] *)
Definition range (n : Z) : list Z := seqZ 0 n.

(** [enumerate(l)], counting from [k]. *)
Fixpoint enumerate_from {A} (k : Z) (l : list A) : list (Z * A) :=
  match l with
  | [] => []
  | x :: l' => (k, x) :: enumerate_from (k + 1) l'
  end.

Definition enumerate {A} (l : list A) : list (Z * A) := enumerate_from 0 l.

(** ** The objects *)

(** The [Frames] object of the caller, as far as the widget uses it. *)
Module Frames.
Record t := mk {
  number_original : Z;
  number : Z;
  index_included : list bool
}.
End Frames.

(** An item of the list widget.  The list is filled once, in [__init__], one
    item per frame; an item is identified by its row. *)
Definition Item := Z.
Definition row (item : Item) : Z := item.

(** The slider [slider_frames]. *)
Record Slider := mkSlider {
  minimum : Z;
  maximum : Z;
  value : Z
}.

(** [VideoFrameSelector]: the flag [image_loading_busy] and the photos shown,
    each with the index and the exclusion mark it was shown with.  Its
    [index_included] is the very list object of the widget (line 145), so the
    embedding reads the widget's field. *)
Record VideoFrameSelector := mkViewer {
  image_loading_busy : bool;
  photos : list (Z * bool)
}.

(** Where the thread of [FramePlayer.play] stands: not in [play], at the test
    of the [while] (line 405), at the body's [if] (line 407), or at the
    [sleep] (line 412). *)
Inductive location := Stopped | AtTest | AtBody | AtSleep.

(** [FramePlayer]: its run flag, the place of its thread, whether the GUI
    elements are blocked and disabled, the indices emitted on
    [set_photo_signal], and the number of [sleep(0.1)] calls made. *)
Record FramePlayer := mkPlayer {
  run_player : bool;
  at_line : location;
  elements_disabled : bool;
  set_photo_signal : list Z;
  sleeps : nat
}.

(** Lines written to the protocol. *)
Inductive message :=
| MsgStart
| MsgIncluded (frame_numbers : list Z)
| MsgExcluded (frame_numbers : list Z)
| MsgRemaining (frames_remaining : Z).

(** [FrameSelectorWidget].  [parent_gui] is [true] when the Python attribute
    is not [None]; [signal_payload] is [None] as long as the attribute of that
    name does not exist; [signal_finished] lists the payloads emitted. *)
Record Widget := mkWidget {
  parent_gui : bool;
  protocol_level : Z;
  frames : Frames.t;
  index_included : list bool;
  items_selected : option (list Item);
  indices_selected : option (list Z);
  frame_index : Z;
  frame_selector : VideoFrameSelector;
  frame_player : FramePlayer;
  slider_frames : Slider;
  protocol : list message;
  signal_payload : option bool;
  signal_finished : list bool;
  closed : bool
}.

(** *** Field updates *)

Definition set_frames (x : Frames.t) (w : Widget) : Widget :=
  mkWidget (parent_gui w) (protocol_level w) x (index_included w)
    (items_selected w) (indices_selected w) (frame_index w) (frame_selector w)
    (frame_player w) (slider_frames w) (protocol w) (signal_payload w)
    (signal_finished w) (closed w).

Definition set_index_included (x : list bool) (w : Widget) : Widget :=
  mkWidget (parent_gui w) (protocol_level w) (frames w) x
    (items_selected w) (indices_selected w) (frame_index w) (frame_selector w)
    (frame_player w) (slider_frames w) (protocol w) (signal_payload w)
    (signal_finished w) (closed w).

Definition set_items_selected (x : option (list Item)) (w : Widget) : Widget :=
  mkWidget (parent_gui w) (protocol_level w) (frames w) (index_included w)
    x (indices_selected w) (frame_index w) (frame_selector w)
    (frame_player w) (slider_frames w) (protocol w) (signal_payload w)
    (signal_finished w) (closed w).

Definition set_indices_selected (x : option (list Z)) (w : Widget) : Widget :=
  mkWidget (parent_gui w) (protocol_level w) (frames w) (index_included w)
    (items_selected w) x (frame_index w) (frame_selector w)
    (frame_player w) (slider_frames w) (protocol w) (signal_payload w)
    (signal_finished w) (closed w).

Definition set_frame_index (x : Z) (w : Widget) : Widget :=
  mkWidget (parent_gui w) (protocol_level w) (frames w) (index_included w)
    (items_selected w) (indices_selected w) x (frame_selector w)
    (frame_player w) (slider_frames w) (protocol w) (signal_payload w)
    (signal_finished w) (closed w).

Definition set_frame_selector (x : VideoFrameSelector) (w : Widget) : Widget :=
  mkWidget (parent_gui w) (protocol_level w) (frames w) (index_included w)
    (items_selected w) (indices_selected w) (frame_index w) x
    (frame_player w) (slider_frames w) (protocol w) (signal_payload w)
    (signal_finished w) (closed w).

Definition set_frame_player (x : FramePlayer) (w : Widget) : Widget :=
  mkWidget (parent_gui w) (protocol_level w) (frames w) (index_included w)
    (items_selected w) (indices_selected w) (frame_index w) (frame_selector w)
    x (slider_frames w) (protocol w) (signal_payload w)
    (signal_finished w) (closed w).

Definition set_slider_frames (x : Slider) (w : Widget) : Widget :=
  mkWidget (parent_gui w) (protocol_level w) (frames w) (index_included w)
    (items_selected w) (indices_selected w) (frame_index w) (frame_selector w)
    (frame_player w) x (protocol w) (signal_payload w)
    (signal_finished w) (closed w).

Definition set_protocol (x : list message) (w : Widget) : Widget :=
  mkWidget (parent_gui w) (protocol_level w) (frames w) (index_included w)
    (items_selected w) (indices_selected w) (frame_index w) (frame_selector w)
    (frame_player w) (slider_frames w) x (signal_payload w)
    (signal_finished w) (closed w).

Definition set_signal_finished (x : list bool) (w : Widget) : Widget :=
  mkWidget (parent_gui w) (protocol_level w) (frames w) (index_included w)
    (items_selected w) (indices_selected w) (frame_index w) (frame_selector w)
    (frame_player w) (slider_frames w) (protocol w) (signal_payload w)
    x (closed w).

Definition set_closed (x : bool) (w : Widget) : Widget :=
  mkWidget (parent_gui w) (protocol_level w) (frames w) (index_included w)
    (items_selected w) (indices_selected w) (frame_index w) (frame_selector w)
    (frame_player w) (slider_frames w) (protocol w) (signal_payload w)
    (signal_finished w) x.

(** ** The monad of the slots: widget state and exceptions

    A computation takes the widget and gives the widget it leaves behind,
    with a value or the exception raised.  An exception keeps the state
    reached when it was raised: Python's in-place updates are not undone. *)

Definition M (A : Type) : Type := Widget -> Widget * result A.

Definition ret {A} (a : A) : M A := fun w => (w, Ok a).

Definition bind {A B} (m : M A) (k : A -> M B) : M B :=
  fun w => match m w with
           | (w', Ok a) => k a w'
           | (w', Raise e) => (w', Raise e)
           end.

Definition get {A} (f : Widget -> A) : M A := fun w => (w, Ok (f w)).

Definition modify (f : Widget -> Widget) : M unit := fun w => (f w, Ok tt).

Definition lift {A} (r : result A) : M A := fun w => (w, r).

Declare Scope slot_scope.
Delimit Scope slot_scope with slot.
Notation "'do' x <- m ; k" := (bind m (fun x => k))
  (at level 10, x name, m at level 100, k at level 200) : slot_scope.
Notation "'do' ' p <- m ; k" := (bind m (fun x => match x with p => k end))
  (at level 10, p pattern, m at level 100, k at level 200) : slot_scope.
Notation "m ;; k" := (bind m (fun _ => k))
  (at level 100, k at level 200, right associativity) : slot_scope.
Local Open Scope slot_scope.

(** [for x in l: body(x)] *)
Fixpoint for_each {A} (l : list A) (body : A -> M unit) : M unit :=
  match l with
  | [] => ret tt
  | x :: l' => body x ;; for_each l' body
  end.

(** [if c: m] *)
Definition when (c : bool) (m : M unit) : M unit := if c then m else ret tt.

(** [fold]: a [for] loop that carries local variables [acc]. *)
Fixpoint for_fold {A S} (l : list A) (body : A -> S -> M S) (acc : S) : M S :=
  match l with
  | [] => ret acc
  | x :: l' => do acc' <- body x acc; for_fold l' body acc'
  end.

(** ** Collaborators outside the file *)

(** Qt's [QAbstractSlider], which is not code of this repository: the value
    is kept within [minimum, maximum], and a range whose ends cross is
    repaired by moving the other end. *)
Definition bound (s : Slider) (v : Z) : Z :=
  Z.max (minimum s) (Z.min (maximum s) v).

Definition setValue (v : Z) (s : Slider) : Slider :=
  mkSlider (minimum s) (maximum s) (bound s v).

Definition setRange (lo hi : Z) (s : Slider) : Slider :=
  setValue (value s) (mkSlider lo (Z.max lo hi) (value s)).

Definition setMinimum (lo : Z) (s : Slider) : Slider :=
  setRange lo (Z.max (maximum s) lo) s.

Definition setMaximum (hi : Z) (s : Slider) : Slider :=
  setRange (Z.min (minimum s) hi) hi s.

(** PyQt, which is not code of this repository either: a Python [int] given
    for a parameter of the C++ type [int] must fit its 32 bits, or the call
    raises [OverflowError].  [frames.number] is the one integer that the
    widget hands to Qt as its caller made it; the others are rows of the
    list, values of the slider and successors of frame indices, which count
    the items of a Qt list. *)
Definition c_int (v : Z) : result Z :=
  if (- 2 ^ 31 <=? v) && (v <? 2 ^ 31) then Ok v else Raise OverflowError.

(** Modelled from the spec: [Frames.frames_mono] of [frames.py], which is
    not among the sources (section 6, [load_frame(index) -> Image]).  The
    load of a frame returns its image, which the frame's index stands for.
    What the call does with an index that is no frame of the set is not
    known here; the embedding lets it return as well, so that a [setPhoto]
    for such an index goes on to the lookup of the flag. *)
Definition frames_mono (fr : Frames.t) (index : Z) : result Z := Ok index.

(** Modelled from the spec: [FrameViewer.setPhoto] of [frame_viewer.py],
    which is not among the sources.  The viewer shows the image with or
    without the exclusion mark, and the load ends the busy state
    (section 7: success or failure both end the busy state). *)
Definition FrameViewer_setPhoto (image : Z) (overlay_exclude_mark : bool) : M unit :=
  modify (fun w =>
    set_frame_selector
      (mkViewer false (photos (frame_selector w) ++ [(image, overlay_exclude_mark)])) w).

(** ** [VideoFrameSelector.setPhoto] (lines 60-78)

    The busy flag is set (line 72), the image is loaded (line 74), and the
    viewer is given the image and the exclusion mark, which is read from the
    working flags (lines 76-78). *)

Definition setPhoto (index : Z) : M unit :=
  modify (fun w =>
    set_frame_selector (mkViewer true (photos (frame_selector w))) w) ;;
  do fr <- get frames;
  do image <- lift (frames_mono fr index);
  do flags <- get index_included;
  do included <- lift (getitem flags index);
  FrameViewer_setPhoto image (negb included).

(** ** [FrameSelectorWidget] *)

Definition log (m : message) : M unit :=
  modify (fun w => set_protocol (protocol w ++ [m]) w).

Definition emit_finished (payload : bool) : M unit :=
  modify (fun w => set_signal_finished (signal_finished w ++ [payload]) w).

(** [__init__] (lines 87-182), from the point where the attributes of lines
    103-112 are assigned.  The loop of lines 123-133 reads the flag of every
    frame to choose the text and the colours of its list item; the texts and
    colours themselves are rendering and are left out.  The constructor of
    [VideoFrameSelector] (line 145) shows the first photo.  [frames.number]
    reaches [setMaximum] (line 163) as the caller made it, a Python [int]. *)
Definition init_body : M unit :=
  do n <- get (fun w => Frames.number_original (frames w));
  for_each (range n) (fun i =>
    do flags <- get index_included;
    do _ <- lift (getitem flags i);
    ret tt) ;;
  modify (set_frame_index 0) ;;
  do index <- get frame_index;
  setPhoto index ;;
  modify (fun w => set_slider_frames (setMinimum 1 (slider_frames w)) w) ;;
  do number <- get (fun w => Frames.number (frames w));
  do hi <- lift (c_int number);
  modify (fun w => set_slider_frames (setMaximum hi (slider_frames w)) w) ;;
  modify (fun w =>
    set_slider_frames (setValue (frame_index w + 1) (slider_frames w)) w) ;;
  do level <- get protocol_level;
  when (0 <? level) (log MsgStart).

(** The widget before the loop of line 123: the working copy of the flags is
    [frames.index_included.copy()], the selection is [None], the player is
    not running, and no attribute [signal_payload] exists.  [ui_slider] is the
    slider as [setupUi] made it. *)
Definition created (parent : bool) (level : Z) (fr : Frames.t) (ui_slider : Slider) : Widget :=
  mkWidget parent level fr (Frames.index_included fr) None None 0
    (mkViewer false []) (mkPlayer false Stopped false [] 0) ui_slider
    [] None [] false.

Definition init (parent : bool) (level : Z) (fr : Frames.t) (ui_slider : Slider) : result Widget :=
  match init_body (created parent level fr ui_slider) with
  | (w, Ok _) => Ok w
  | (_, Raise e) => Raise e
  end.

(** [select_items] (lines 184-201).  [selectedItems] is what
    [listWidget.selectedItems()] returns, in Qt's order. *)
Definition select_items (selectedItems : list Item) : M unit :=
  modify (set_items_selected (Some selectedItems)) ;;
  do items <- get items_selected;
  modify (set_indices_selected (option_map (map row) items)) ;;
  do indices <- get indices_selected;
  do first <- lift (subscript indices 0);
  modify (set_frame_index first) ;;
  modify (fun w =>
    set_slider_frames (setValue (frame_index w + 1) (slider_frames w)) w) ;;
  do index <- get frame_index;
  setPhoto index.

(** The [Escape] branch of [eventFilter] (lines 234-236). *)
Definition key_escape : M unit :=
  modify (set_items_selected (Some [])) ;;
  modify (set_indices_selected (Some [])).

(** One pass of the loop shared by [use_triggered] and [not_use_triggered]
    (lines 251-257 and 267-273), which differ in the flag they write (and in
    the text and colours of the item). *)
Definition mark_item (flag : bool) (entry : Z * Item) : M unit :=
  let '(index, item) := entry in
  do indices <- get indices_selected;
  do index_selected <- lift (subscript indices index);
  do flags <- get index_included;
  do flags' <- lift (setitem flags index_selected flag);
  modify (set_index_included flags') ;;
  do current <- get frame_index;
  setPhoto current.

Definition mark_selected (flag : bool) : M unit :=
  do items <- get items_selected;
  when (truthy items)
    (for_each (enumerate (default [] items)) (mark_item flag)).

(** [use_triggered] (lines 239-257) *)
Definition use_triggered : M unit := mark_selected true.

(** [not_use_triggered] (lines 259-273) *)
Definition not_use_triggered : M unit := mark_selected false.

(** [slider_frames_changed] (lines 275-293).  [selectedItems] is the
    selection Qt reports after [setCurrentRow]. *)
Definition slider_frames_changed (selectedItems : list Item) : M unit :=
  modify (fun w => set_frame_index (value (slider_frames w) - 1) w) ;;
  select_items selectedItems ;;
  do index <- get frame_index;
  setPhoto index.

(** [pushbutton_stop_clicked] (lines 295-303) *)
Definition pushbutton_stop_clicked : M unit :=
  modify (fun w =>
    let p := frame_player w in
    set_frame_player
      (mkPlayer false (at_line p) (elements_disabled p) (set_photo_signal p) (sleeps p)) w).

(** The loop of [done] (lines 313-322).  It returns its two local lists; the
    committed flags [frames.index_included] are written in place as the loop
    goes. *)
Definition write_committed (index : Z) (flag : bool) : M unit :=
  do fr <- get frames;
  do flags' <- lift (setitem (Frames.index_included fr) index flag);
  modify (set_frames
    (Frames.mk (Frames.number_original fr) (Frames.number fr) flags')).

(** One pass of the loop body (lines 317-322) for frame [index]. *)
Definition done_step (index : Z) (changes : list Z * list Z) : M (list Z * list Z) :=
  let '(indices_included, indices_excluded) := changes in
  do mine <- get index_included;
  do working <- lift (getitem mine index);
  do fr <- get frames;
  do committed <- lift (getitem (Frames.index_included fr) index);
  if working && negb committed then
    write_committed index true ;;
    ret (indices_included ++ [index], indices_excluded)
  else if negb working && committed then
    write_committed index false ;;
    ret (indices_included, indices_excluded ++ [index])
  else ret (indices_included, indices_excluded).

Definition done_changes : M (list Z * list Z) :=
  do n <- get (fun w => Frames.number_original (frames w));
  for_fold (range n) done_step ([], []).

(** Truth value of a list. *)
Definition nonempty {A} (l : list A) : bool :=
  match l with [] => false | _ => true end.

(** [done] (lines 305-351) *)
Definition done : M unit :=
  do '(indices_included, indices_excluded) <- done_changes;
  do level <- get protocol_level;
  when (1 <? level)
    (when (nonempty indices_included)
       (log (MsgIncluded (map (fun item => item + 1) indices_included))) ;;
     when (nonempty indices_excluded)
       (log (MsgExcluded (map (fun item => item + 1) indices_excluded))) ;;
     do fr <- get frames;
     let frames_remaining := py_sum (Frames.index_included fr) in
     when (negb (frames_remaining =? Frames.number fr))
       (log (MsgRemaining frames_remaining))) ;;
  do parent <- get parent_gui;
  when parent
    (emit_finished (nonempty indices_included || nonempty indices_excluded)) ;;
  modify (set_closed true).

(** Reading the attribute [self.signal_payload]. *)
Definition read_signal_payload : M bool :=
  do attribute <- get signal_payload;
  match attribute with
  | Some payload => ret payload
  | None => lift (Raise AttributeError)
  end.

(** [reject] (lines 353-365) *)
Definition reject : M unit :=
  do parent <- get parent_gui;
  when parent
    (do payload <- read_signal_payload;
     emit_finished payload) ;;
  modify (set_closed true).

(** ** [FramePlayer.play] (lines 390-422) *)

Definition at_player (l : location) (p : FramePlayer) : FramePlayer :=
  mkPlayer (run_player p) l (elements_disabled p) (set_photo_signal p) (sleeps p).

(** Lines 398-403: the GUI elements are blocked and disabled, the run flag is
    set, and the thread comes to the test of the loop. *)
Definition play_begin (w : Widget) : Widget :=
  let p := frame_player w in
  set_frame_player (mkPlayer true AtTest true (set_photo_signal p) (sleeps p)) w.

(** One step of the thread that runs [play].
    - at the test (lines 405-406): into the body, or out of the loop, where
      the run flag is cleared and the elements are released (lines 415-422);
    - at the body (lines 407-411): unless an image is loading, the index is
      advanced, the slider is set and the new index is emitted;
    - at the sleep (lines 412-413): one [sleep(0.1)], then back to the test.

    The body sets off two slots.  [setValue] makes the slider emit
    [valueChanged] when its value changes, which is connected to
    [slider_frames_changed] (line 177); [play] does not block the slider's
    signals, as [select_items] does around its own [setValue] (lines
    196-198), and the slider is not among the elements [play] blocks (lines
    383-385).  [set_photo_signal] is connected to
    [VideoFrameSelector.setPhoto] (line 158).  The receivers live in the GUI
    thread and [play] runs on the player's (lines 154-159), so Qt queues
    both calls: the slots are not run by this step but by the GUI thread,
    after it.  They are the actions [SliderMoved], with the slider's value
    for position, and [PhotoSignal] of the section below; [queued_by_step]
    there lists them for a step, and a schedule of a playback has them where
    the GUI thread gets to them. *)
Definition play_step (w : Widget) : Widget :=
  let p := frame_player w in
  match at_line p with
  | Stopped => w
  | AtTest =>
      if (frame_index w <? Frames.number_original (frames w) - 1) && run_player p
      then set_frame_player (at_player AtBody p) w
      else set_frame_player
             (mkPlayer false Stopped false (set_photo_signal p) (sleeps p)) w
  | AtBody =>
      if negb (image_loading_busy (frame_selector w)) then
        let w1 := set_frame_index (frame_index w + 1) w in
        let w2 := set_slider_frames
                    (setValue (frame_index w1 + 1) (slider_frames w1)) w1 in
        set_frame_player
          (mkPlayer (run_player p) AtSleep (elements_disabled p)
             (set_photo_signal p ++ [frame_index w2]) (sleeps p)) w2
      else set_frame_player (at_player AtSleep p) w
  | AtSleep =>
      set_frame_player
        (mkPlayer (run_player p) AtTest (elements_disabled p)
           (set_photo_signal p) (S (sleeps p))) w
  end.

(** ** Sessions *)

(** What can happen to an open widget before it is closed by [done] or
    [reject]: the slots of the GUI thread, with what Qt hands to them; the
    start of a call of [play] on the player's thread, which Qt delivers only
    when that thread is not inside [play]; a step of that thread; the busy
    flag of the viewer changing as a load starts or ends; and the slot of
    [set_photo_signal].  [SliderMoved] is the slot of [valueChanged],
    whether the user moved the slider to [position] or [play] did;
    [selectedItems] is the selection Qt reports after the slot's
    [setCurrentRow] (line 286), whose flag [SelectCurrent] selects the
    slider's row without clearing the selection first: rows selected before
    can be in it, and before the slider's row. *)
Inductive action :=
| ItemClicked (selectedItems : list Item)
| KeyEscape
| UseTriggered
| NotUseTriggered
| SliderMoved (position : Z) (selectedItems : list Item)
| StopClicked
| PlayStarts
| PlayerStep
| ImageLoading (busy : bool)
| PhotoSignal (index : Z).

Definition exec (a : action) : M unit :=
  match a with
  | ItemClicked selectedItems => select_items selectedItems
  | KeyEscape => key_escape
  | UseTriggered => use_triggered
  | NotUseTriggered => not_use_triggered
  | SliderMoved position selectedItems =>
      modify (fun w => set_slider_frames (setValue position (slider_frames w)) w) ;;
      slider_frames_changed selectedItems
  | StopClicked => pushbutton_stop_clicked
  | PlayStarts =>
      modify (fun w =>
        match at_line (frame_player w) with
        | Stopped => play_begin w
        | _ => w
        end)
  | PlayerStep => modify play_step
  | ImageLoading busy =>
      modify (fun w =>
        set_frame_selector (mkViewer busy (photos (frame_selector w))) w)
  | PhotoSignal index => setPhoto index
  end.

(** A session: the actions in order.  A slot that raises leaves the state it
    reached; the session goes on from there. *)
Definition run (actions : list action) (w : Widget) : Widget :=
  fold_left (fun w a => fst (exec a w)) actions w.

(** The slots that the step which the thread takes in [w] sets off: at the
    body, with no load in progress, [valueChanged] if the advance changes the
    slider's value, and [set_photo_signal].  [selectedItems] is the selection
    Qt will report to the first. *)
Definition queued_by_step (selectedItems : list Item) (w : Widget) : list action :=
  match at_line (frame_player w) with
  | AtBody =>
      if negb (image_loading_busy (frame_selector w)) then
        let position := bound (slider_frames w) (frame_index w + 1 + 1) in
        (if position =? value (slider_frames w) then []
         else [SliderMoved position selectedItems]) ++
        [PhotoSignal (frame_index w + 1)]
      else []
  | _ => []
  end.


(** The events of a playback that leave the current index to the loop: the
    steps of the thread, the stop button and the viewer's busy flag.  The
    slots that [play] sets off and the seeks with the slider, which stays
    enabled, are not among them: the schedules of [undisturbed], [no_restart]
    and [seek_spares_increment] below have those. *)
Definition playback_event (a : action) : bool :=
  match a with
  | StopClicked | PlayerStep | ImageLoading _ => true
  | _ => false
  end.

(** ** The data model of the specification *)

(** The invariant of the FrameSet: [number] counts the flags that are set. *)
Definition number_counts_included (fr : Frames.t) : Prop :=
  Frames.number fr = py_sum (Frames.index_included fr).

(** The length of a flag array is the number of frames. *)
Definition sized (fr : Frames.t) (flags : list bool) : Prop :=
  Z.of_nat (length flags) = Frames.number_original fr.

(** [current_index] lies in [[0, number_original - 1]]. *)
Definition index_in_range (w : Widget) : Prop :=
  0 <= frame_index w <= Frames.number_original (frames w) - 1.

(** Rows of a list widget with [n] items. *)
Definition valid_rows (n : Z) (rows : list Z) : bool :=
  forallb (fun r => (0 <=? r) && (r <? n)) rows.

(** The flag of frame [i] is set in [a] and clear in [b]. *)
Definition flipped (a b : list bool) (i : Z) : bool :=
  match a !! Z.to_nat i, b !! Z.to_nat i with
  | Some true, Some false => true
  | _, _ => false
  end.

(** *** The selection state, in the specification's words *)

Record SelectionState := mkSelection {
  working_inclusion : list bool;
  selected_indices : list Z
}.

(** "for every index in [selected_indices], set [working_inclusion[index]]"
    to the flag; every other position is as it was. *)
Definition mark_selected_spec (flag : bool) (s : SelectionState) : SelectionState :=
  mkSelection
    (imap (fun i b => if decide (Z.of_nat i ∈ selected_indices s) then flag else b)
       (working_inclusion s))
    (selected_indices s).

Definition include_selected_spec : SelectionState -> SelectionState :=
  mark_selected_spec true.

Definition exclude_selected_spec : SelectionState -> SelectionState :=
  mark_selected_spec false.

(** [set_selection] "replaces [selected_indices]". *)
Definition set_selection_spec (indices : list Z) (s : SelectionState) : SelectionState :=
  mkSelection (working_inclusion s) indices.

(** Replaying the actions of a session on the selection state. *)
Definition replay_action (s : SelectionState) (a : action) : SelectionState :=
  match a with
  | ItemClicked rows => set_selection_spec rows s
  | SliderMoved _ rows => set_selection_spec rows s
  | KeyEscape => set_selection_spec [] s
  | UseTriggered => include_selected_spec s
  | NotUseTriggered => exclude_selected_spec s
  | _ => s
  end.

Definition replay (actions : list action) (s : SelectionState) : SelectionState :=
  fold_left replay_action actions s.

(** The selection state a widget stands for. *)
Definition selection_of (w : Widget) : SelectionState :=
  mkSelection (index_included w) (default [] (indices_selected w)).

(** The least element of a list of indices. *)
Definition least (indices : list Z) : option Z :=
  match indices with
  | [] => None
  | i :: rest => Some (fold_left Z.min rest i)
  end.

(** The flags after writing [flag] at the rows of [rows], one after the
    other. *)
Definition written (flag : bool) (rows : list Z) (flags : list bool) : list bool :=
  foldl (fun l r => <[Z.to_nat r := flag]> l) flags rows.

(** *** Well-formed sessions *)

(** The actions of an editing session, with the player at rest: Qt hands
    over a selection that is not empty and holds rows of the list. *)
Definition edit_action (n : Z) (a : action) : bool :=
  match a with
  | ItemClicked rows => nonempty rows && valid_rows n rows
  | SliderMoved _ rows => nonempty rows && valid_rows n rows
  | PlayStarts | PlayerStep | PhotoSignal _ => false
  | _ => true
  end.

(** An open widget: the working copy has one flag per frame, the items and
    the rows of the selection belong together, the selection holds rows of
    the list, and the current index is a row of the list. *)
Definition editing (w : Widget) : Prop :=
  sized (frames w) (index_included w) /\
  items_selected w = indices_selected w /\
  valid_rows (Frames.number_original (frames w)) (default [] (indices_selected w)) = true /\
  index_in_range w.





Definition is_player_step (a : action) : bool :=
  match a with PlayerStep => true | _ => false end.

(** The number of steps the player's thread takes in a schedule. *)
Definition player_steps (actions : list action) : nat :=
  length (List.filter is_player_step actions).

(** The slider as [__init__] configures it (lines 162-163). *)
Definition slider_configured (w : Widget) : Prop :=
  minimum (slider_frames w) = 1 /\
  maximum (slider_frames w) = Frames.number (frames w) /\
  1 <= Frames.number (frames w).

(** *** Frame conditions *)

(** The computation [m] does not change the field [f], whether it returns or
    raises. *)
Definition keeps {X} (f : Widget -> X) {A} (m : M A) : Prop :=
  forall w, f (fst (m w)) = f w.

(** A field that the updates made in an open session leave alone; such are
    the caller's [frames], the attribute [signal_payload], [signal_finished]
    and [closed]. *)
Definition session_field {X} (f : Widget -> X) : Prop :=
  (forall v w, f (set_index_included v w) = f w) /\
  (forall v w, f (set_items_selected v w) = f w) /\
  (forall v w, f (set_indices_selected v w) = f w) /\
  (forall v w, f (set_frame_index v w) = f w) /\
  (forall v w, f (set_frame_selector v w) = f w) /\
  (forall v w, f (set_frame_player v w) = f w) /\
  (forall v w, f (set_slider_frames v w) = f w).

(** *** States of the playback *)

(** What a playback can move is as it was in [w0]. *)
Definition unmoved (w0 w : Widget) : Prop :=
  frame_index w = frame_index w0 /\
  set_photo_signal (frame_player w) = set_photo_signal (frame_player w0) /\
  sleeps (frame_player w) = sleeps (frame_player w0) /\
  value (slider_frames w) = value (slider_frames w0) /\
  photos (frame_selector w) = photos (frame_selector w0) /\
  frames w = frames w0.

(** The thread has left the loop and gone through lines 415-422. *)
Definition finished (w : Widget) : Prop :=
  at_line (frame_player w) = Stopped /\
  run_player (frame_player w) = false /\
  elements_disabled (frame_player w) = false.

(** At the test with the index at the last frame or beyond: the next step of
    the thread leaves the loop. *)
Definition at_last_test (w0 w : Widget) : Prop :=
  at_line (frame_player w) = AtTest /\
  Frames.number_original (frames w) - 1 <= frame_index w /\
  unmoved w0 w.









(** The widget of the playback that does not end: five frames, of which the
    user has selected the first with a click and the third with a click
    under the Ctrl key. *)
Definition selected_0_and_2 (w : Widget) : Widget :=
  run [ItemClicked [0]; ItemClicked [0; 2]] w.

(** One pass of that playback: the test, the body, the two slots the body
    has set off, run while the thread sleeps, and the end of the sleep.  The
    slider stands at 2 after the advance to frame 1, and Qt reports a
    selection that begins with row 0. *)
Definition pass_with_slots (others : list Item) : list action :=
  [PlayerStep; PlayerStep; SliderMoved 2 (0 :: others); PhotoSignal 1; PlayerStep].

(** The state at the test of that playback. *)
Definition back_at_first (w : Widget) : Prop :=
  Frames.number_original (frames w) = 5 /\
  (2 <= length (index_included w))%nat /\
  slider_frames w = mkSlider 1 5 1 /\
  frame_index w = 0 /\
  at_line (frame_player w) = AtTest /\
  run_player (frame_player w) = true /\
  image_loading_busy (frame_selector w) = false.

(** ** Example values *)

Definition ui_slider : Slider := mkSlider 0 99 0.

Definition frames4 : Frames.t := Frames.mk 4 3 [true; true; false; true].

(** A widget with a parent, opened on four frames of which three are
    included. *)
Definition widget4 : Widget :=
  fst (init_body (created true 2 frames4 ui_slider)).

Definition frames5 : Frames.t := Frames.mk 5 5 [true; true; true; true; true].

Definition widget5 : Widget :=
  fst (init_body (created false 0 frames5 ui_slider)).

(** *** Further states of the widget *)


(** *** Further states of the playback *)

(** The state of a playback that began in [w0] and meets the stop button
    and the busy flag only: every
    index the loop has moved to was emitted, in order; the loop has advanced
    at most once for each [sleep] made, and once more if it stands at the
    [sleep]; the GUI elements are disabled exactly while the thread is in the
    loop, and the run flag is clear when it is out. *)
Definition following (w0 w : Widget) : Prop :=
  let j := frame_index w - frame_index w0 in
  0 <= j /\
  set_photo_signal (frame_player w) =
    set_photo_signal (frame_player w0) ++ seqZ (frame_index w0 + 1) j /\
  (sleeps (frame_player w0) <= sleeps (frame_player w))%nat /\
  match at_line (frame_player w) with
  | Stopped =>
      j <= Z.of_nat (sleeps (frame_player w) - sleeps (frame_player w0)) /\
      elements_disabled (frame_player w) = false /\
      run_player (frame_player w) = false
  | AtSleep =>
      j <= Z.of_nat (sleeps (frame_player w) - sleeps (frame_player w0)) + 1 /\
      elements_disabled (frame_player w) = true
  | _ =>
      j <= Z.of_nat (sleeps (frame_player w) - sleeps (frame_player w0)) /\
      elements_disabled (frame_player w) = true
  end.

(** The pace of the loop since [w0]: what was emitted stays emitted, and the
    loop has emitted at most one index for each [sleep] made, and one more
    when the thread stands at the [sleep]. *)
Definition paced (w0 w : Widget) : Prop :=
  (sleeps (frame_player w0) <= sleeps (frame_player w))%nat /\
  exists emitted,
    set_photo_signal (frame_player w) = set_photo_signal (frame_player w0) ++ emitted /\
    (length emitted <=
       sleeps (frame_player w) - sleeps (frame_player w0) +
       match at_line (frame_player w) with AtSleep => 1 | _ => 0 end)%nat.

(** The events of a playback during which the viewer stays busy and the stop
    button is not clicked. *)
Definition held_event (a : action) : bool :=
  match a with
  | PlayerStep | ImageLoading true => true
  | _ => false
  end.

(** How far the thread is into the pass it is making: 0 at the test, 1 at
    the body, 2 at the sleep. *)
Definition pass_position (w : Widget) : nat :=
  match at_line (frame_player w) with
  | AtBody => 1
  | AtSleep => 2
  | _ => 0
  end.

(** The state of a playback held up by a busy viewer since [w0]: the thread
    is in the loop below the last frame, with the run flag set, and nothing
    has moved. *)
Definition held (w0 w : Widget) : Prop :=
  image_loading_busy (frame_selector w) = true /\
  run_player (frame_player w) = true /\
  at_line (frame_player w) <> Stopped /\
  frames w = frames w0 /\
  frame_index w = frame_index w0 /\
  frame_index w < Frames.number_original (frames w) - 1 /\
  set_photo_signal (frame_player w) = set_photo_signal (frame_player w0) /\
  value (slider_frames w) = value (slider_frames w0).

(** * Theorems *)

(** ** Python's sequences *)

Lemma py_index_in_range (n : nat) (i : Z) :
  0 <= i < Z.of_nat n -> py_index n i = Some (Z.to_nat i).
Proof.
  intros Hi. unfold py_index.
  destruct (Z.leb_spec 0 i); [|lia].
  destruct (Z.ltb_spec i (Z.of_nat n)); [reflexivity|lia].
Qed.

Lemma py_index_lt (n : nat) (i : Z) (k : nat) :
  py_index n i = Some k -> (k < n)%nat.
Proof.
  unfold py_index.
  destruct (Z.leb_spec 0 i), (Z.ltb_spec i (Z.of_nat n)); simpl;
    try (intros [= <-]; lia);
    destruct (Z.leb_spec (- Z.of_nat n) i), (Z.ltb_spec i 0); simpl;
    try discriminate; intros [= <-]; lia.
Qed.

Lemma getitem_in_range {A} (l : list A) (i : Z) (x : A) :
  0 <= i -> l !! Z.to_nat i = Some x -> getitem l i = Ok x.
Proof.
  intros Hi Hx. unfold getitem.
  rewrite py_index_in_range.
  - by rewrite Hx.
  - apply lookup_lt_Some in Hx. lia.
Qed.

Lemma setitem_in_range {A} (l : list A) (i : Z) (v : A) :
  0 <= i < Z.of_nat (length l) -> setitem l i v = Ok (<[Z.to_nat i := v]> l).
Proof. intros Hi. unfold setitem. by rewrite py_index_in_range. Qed.

Lemma setitem_length {A} (l l' : list A) (i : Z) (v : A) :
  setitem l i v = Ok l' -> length l' = length l.
Proof.
  unfold setitem. destruct (py_index _ _); [|discriminate].
  intros [= <-]. apply length_insert.
Qed.

Lemma valid_rows_spec (n : Z) (rows : list Z) :
  valid_rows n rows = true <-> Forall (fun r => 0 <= r < n) rows.
Proof.
  unfold valid_rows. rewrite forallb_forall, Forall_forall.
  split; intros H r Hr.
  - apply list_elem_of_In in Hr. specialize (H r Hr). lia.
  - apply list_elem_of_In in Hr. specialize (H r Hr). lia.
Qed.


(** ** What a slot leaves alone *)

Section Keeps.

Context {X : Type} (f : Widget -> X).

Lemma keeps_ret {A} (a : A) : keeps f (ret a).
Proof. by intros w. Qed.

Lemma keeps_get {A} (g : Widget -> A) : keeps f (get g).
Proof. by intros w. Qed.

Lemma keeps_lift {A} (r : result A) : keeps f (lift r).
Proof. by intros w. Qed.

Lemma keeps_modify (g : Widget -> Widget) :
  (forall w, f (g w) = f w) -> keeps f (modify g).
Proof. intros H w. apply H. Qed.

Lemma keeps_bind {A B} (m : M A) (k : A -> M B) :
  keeps f m -> (forall a, keeps f (k a)) -> keeps f (bind m k).
Proof.
  intros Hm Hk w. unfold bind. specialize (Hm w).
  destruct (m w) as [w' [a|e]]; simpl in *.
  - by rewrite Hk.
  - done.
Qed.

Lemma keeps_when (c : bool) (m : M unit) : keeps f m -> keeps f (when c m).
Proof. destruct c; [done|]. intros _. apply keeps_ret. Qed.

Lemma keeps_for_each {A} (l : list A) (body : A -> M unit) :
  (forall x, keeps f (body x)) -> keeps f (for_each l body).
Proof.
  intros Hbody. induction l as [|x l IH]; simpl.
  - apply keeps_ret.
  - apply keeps_bind; [apply Hbody | intros _; apply IH].
Qed.

Lemma keeps_for_fold {A S} (l : list A) (body : A -> S -> M S) (acc : S) :
  (forall x s, keeps f (body x s)) -> keeps f (for_fold l body acc).
Proof.
  intros Hbody. revert acc. induction l as [|x l IH]; intros acc; simpl.
  - apply keeps_ret.
  - apply keeps_bind; [apply Hbody | intros s; apply IH].
Qed.

End Keeps.

(** Breaks a computation into its primitive steps; what is left are the
    field updates, which are settled by computation. *)
Ltac keeps_steps :=
  repeat match goal with
    | |- forall _, _ => intro
    | |- keeps _ (ret _) => apply keeps_ret
    | |- keeps _ (get _) => apply keeps_get
    | |- keeps _ (lift _) => apply keeps_lift
    | |- keeps _ (bind _ _) => apply keeps_bind
    | |- keeps _ (when _ _) => apply keeps_when
    | |- keeps _ (for_each _ _) => apply keeps_for_each
    | |- keeps _ (for_fold _ _ _) => apply keeps_for_fold
    | |- keeps _ (modify _) => apply keeps_modify; intros; try reflexivity
    | |- keeps _ (match ?x with _ => _ end) => destruct x
    | |- keeps _ _ => progress cbv beta
    end.

Lemma setPhoto_keeps {X} (f : Widget -> X) (index : Z) :
  (forall v w, f (set_frame_selector v w) = f w) -> keeps f (setPhoto index).
Proof.
  intros Hf. unfold setPhoto, FrameViewer_setPhoto. keeps_steps; apply Hf.
Qed.

Lemma play_step_keeps {X} (f : Widget -> X) (w : Widget) :
  session_field f -> f (play_step w) = f w.
Proof.
  intros (_ & _ & _ & Hi & _ & Hp & Hs). unfold play_step.
  destruct (at_line (frame_player w)); [done| | |].
  - destruct (_ && _); apply Hp.
  - destruct (negb _); [|apply Hp]. by rewrite Hp, Hs, Hi.
  - apply Hp.
Qed.

Lemma exec_keeps {X} (f : Widget -> X) (a : action) :
  session_field f -> keeps f (exec a).
Proof.
  intros Hf. pose proof Hf as (Hw & Hit & Hin & Hi & Hv & Hp & Hs).
  destruct a; simpl;
    unfold select_items, key_escape, use_triggered, not_use_triggered,
      mark_selected, mark_item, slider_frames_changed, select_items,
      pushbutton_stop_clicked;
    keeps_steps; auto using setPhoto_keeps.
  - destruct (at_line (frame_player w)); try done. apply Hp.
  - by apply play_step_keeps.
Qed.

Lemma run_keeps {X} (f : Widget -> X) (actions : list action) (w : Widget) :
  session_field f -> f (run actions w) = f w.
Proof.
  intros Hf. revert w. induction actions as [|a actions IH]; intros w; [done|].
  simpl. change (f (run actions (fst (exec a w))) = f w).
  rewrite IH. by apply exec_keeps.
Qed.

Lemma mark_selected_keeps {X} (f : Widget -> X) (flag : bool) :
  (forall v w, f (set_index_included v w) = f w) ->
  (forall v w, f (set_frame_selector v w) = f w) ->
  keeps f (mark_selected flag).
Proof.
  intros Hflags Hviewer. unfold mark_selected, mark_item.
  keeps_steps; auto using setPhoto_keeps.
Qed.

(** The slots that select, seek and show leave alone what is neither the
    selection, nor the index, nor the viewer, nor the slider. *)
Lemma slot_keeps {X} (f : Widget -> X) (a : action) :
  (forall v w, f (set_items_selected v w) = f w) ->
  (forall v w, f (set_indices_selected v w) = f w) ->
  (forall v w, f (set_frame_index v w) = f w) ->
  (forall v w, f (set_frame_selector v w) = f w) ->
  (forall v w, f (set_slider_frames v w) = f w) ->
  match a with
  | ItemClicked _ | KeyEscape | SliderMoved _ _ | ImageLoading _ | PhotoSignal _ =>
      keeps f (exec a)
  | _ => True
  end.
Proof.
  intros Hit Hin Hi Hv Hs.
  destruct a; try exact I; cbn [exec];
    unfold select_items, key_escape, slider_frames_changed, select_items;
    keeps_steps; auto using setPhoto_keeps.
Qed.

(** Only the stop button, the start of [play] and the steps of its thread
    touch the player. *)
Lemma exec_player (a : action) (w : Widget) :
  match a with
  | StopClicked | PlayStarts | PlayerStep => True
  | _ => frame_player (fst (exec a w)) = frame_player w
  end.
Proof.
  pose proof (slot_keeps frame_player a ltac:(done) ltac:(done) ltac:(done)
                ltac:(done) ltac:(done)) as Hslot.
  destruct a; try exact I; try apply Hslot;
    cbn [exec]; by apply mark_selected_keeps.
Qed.

Lemma bind_keeps_after {X A B} (f : Widget -> X) (m : M A) (k : A -> M B) (w : Widget) :
  (forall a, keeps f (k a)) -> f (fst (bind m k w)) = f (fst (m w)).
Proof.
  intros Hk. unfold bind. destruct (m w) as [w1 [a|e]]; [apply Hk|done].
Qed.

Lemma session_field_frames : session_field frames.
Proof. by repeat split. Qed.

Lemma session_field_signal_payload : session_field signal_payload.
Proof. by repeat split. Qed.

Lemma session_field_closed : session_field closed.
Proof. by repeat split. Qed.

Lemma session_field_signal_finished : session_field signal_finished.
Proof. by repeat split. Qed.

Lemma session_field_parent_gui : session_field parent_gui.
Proof. by repeat split. Qed.

(** ** Opening and closing the widget *)

Lemma init_leaves {X} (f : Widget -> X) parent level fr ui w :
  (forall v w, f (set_frame_index v w) = f w) ->
  (forall v w, f (set_frame_selector v w) = f w) ->
  (forall v w, f (set_slider_frames v w) = f w) ->
  (forall v w, f (set_protocol v w) = f w) ->
  init parent level fr ui = Ok w -> f w = f (created parent level fr ui).
Proof.
  intros Hi Hv Hs Hlog. unfold init.
  assert (keeps f init_body) as Hk.
  { unfold init_body, log. keeps_steps; auto using setPhoto_keeps. }
  specialize (Hk (created parent level fr ui)).
  destruct (init_body _) as [w' [[]|e]]; [|discriminate].
  by intros [= <-].
Qed.

(** Rewrites a field of a widget just opened to what it was made with. *)
Ltac from_init f Hinit :=
  rewrite (init_leaves f _ _ _ _ _ ltac:(done) ltac:(done) ltac:(done) ltac:(done) Hinit).

Lemma reject_keeps_frames : keeps frames reject.
Proof. unfold reject, read_signal_payload, emit_finished. keeps_steps. Qed.

Lemma reject_without_payload (w : Widget) :
  parent_gui w = true -> signal_payload w = None ->
  reject w = (w, Raise AttributeError).
Proof.
  intros Hparent Hattr. unfold reject, read_signal_payload, bind, get, when.
  by rewrite Hparent, Hattr.
Qed.

(** C4: whatever was done in the session, [reject] leaves the caller's
    [Frames] object as it was when the widget was opened: the flags
    [index_included] and [number] are those of the session's start. *)
Theorem reject_leaves_frames parent level fr ui w (actions : list action) :
  init parent level fr ui = Ok w ->
  let fr' := frames (fst (reject (run actions w))) in
  fr' = fr /\
  Frames.index_included fr' = Frames.index_included fr /\
  Frames.number fr' = Frames.number fr.
Proof.
  intros Hinit.
  assert (frames (fst (reject (run actions w))) = fr) as ->.
  { rewrite reject_keeps_frames, (run_keeps frames) by apply session_field_frames.
    by from_init frames Hinit. }
  done.
Qed.

Lemma reject_leaves_frames_witness :
  let fr' := frames (fst (reject (run
      [ItemClicked [2; 0]; UseTriggered; ItemClicked [1]; NotUseTriggered] widget4))) in
  fr' = frames4 /\
  Frames.index_included fr' = Frames.index_included frames4 /\
  Frames.number fr' = Frames.number frames4.
Proof.
  apply (reject_leaves_frames true 2 frames4 ui_slider widget4). vm_compute. reflexivity.
Defined.

(** C10: in every state an open widget with a parent can reach, [reject]
    raises [AttributeError] at the read of [self.signal_payload], which
    nothing assigns: the state is the one before the call, so nothing has
    been emitted and the window is not closed. *)
Theorem reject_raises_AttributeError level fr ui w (actions : list action) :
  init true level fr ui = Ok w ->
  let w' := run actions w in
  reject w' = (w', Raise AttributeError) /\
  closed w' = false /\
  signal_finished w' = [].
Proof.
  intros Hinit w'. subst w'. split; [|split].
  - apply reject_without_payload.
    + rewrite (run_keeps parent_gui) by apply session_field_parent_gui.
      by from_init parent_gui Hinit.
    + rewrite (run_keeps signal_payload) by apply session_field_signal_payload.
      by from_init signal_payload Hinit.
  - rewrite (run_keeps closed) by apply session_field_closed.
    by from_init closed Hinit.
  - rewrite (run_keeps signal_finished) by apply session_field_signal_finished.
    by from_init signal_finished Hinit.
Qed.

Lemma reject_raises_AttributeError_witness :
  let w' := run [ItemClicked [1]; NotUseTriggered] widget4 in
  reject w' = (w', Raise AttributeError) /\
  closed w' = false /\
  signal_finished w' = [].
Proof.
  apply (reject_raises_AttributeError 2 frames4 ui_slider widget4). vm_compute. reflexivity.
Defined.

(** ** [done]: the changes and their commit *)

Lemma write_committed_in_range (w : Widget) (k : nat) (flag : bool) :
  (k < length (Frames.index_included (frames w)))%nat ->
  write_committed (Z.of_nat k) flag w =
    (set_frames (Frames.mk (Frames.number_original (frames w)) (Frames.number (frames w))
                   (<[k := flag]> (Frames.index_included (frames w)))) w, Ok tt).
Proof.
  intros Hk. unfold write_committed, bind, get, lift, modify.
  rewrite setitem_in_range by lia. by rewrite Nat2Z.id.
Qed.

Lemma done_step_in_range (w : Widget) (k : nat) (a b : bool) (inc exc : list Z) :
  index_included w !! k = Some a ->
  Frames.index_included (frames w) !! k = Some b ->
  exists w',
    done_step (Z.of_nat k) (inc, exc) w =
      (w', Ok (inc ++ (if a && negb b then [Z.of_nat k] else []),
               exc ++ (if negb a && b then [Z.of_nat k] else []))) /\
    index_included w' = index_included w /\
    frames w' = Frames.mk (Frames.number_original (frames w)) (Frames.number (frames w))
                  (<[k := a]> (Frames.index_included (frames w))).
Proof.
  intros Ha Hb. unfold done_step, bind, get, lift.
  rewrite (getitem_in_range _ _ a), (getitem_in_range _ _ b)
    by (rewrite ?Nat2Z.id; done || lia).
  pose proof (lookup_lt_Some _ _ _ Hb) as Hlt.
  destruct a, b; simpl; rewrite ?write_committed_in_range by done;
    rewrite ?app_nil_r; eexists; (split; [reflexivity|]); split; try done.
  - destruct (frames w) as [n m flags]; simpl in *. by rewrite list_insert_id.
  - destruct (frames w) as [n m flags]; simpl in *. by rewrite list_insert_id.
Qed.

Lemma insert_take_drop {A} (k : nat) (W F : list A) (a : A) :
  W !! k = Some a -> (k < length F)%nat ->
  <[k := a]> (take k W ++ drop k F) = take (S k) W ++ drop (S k) F.
Proof.
  intros Ha Hk. pose proof (lookup_lt_Some _ _ _ Ha) as HkW.
  rewrite insert_app_r_alt by (rewrite length_take; lia).
  rewrite length_take, Nat.min_l, Nat.sub_diag by lia.
  destruct (lookup_lt_is_Some_2 F k Hk) as [b Hb].
  rewrite (drop_S F b k Hb). simpl.
  rewrite (take_S_r W k a Ha). by rewrite <- app_assoc.
Qed.

Lemma flipped_lookup (a b : list bool) (k : nat) (x y : bool) :
  a !! k = Some x -> b !! k = Some y -> flipped a b (Z.of_nat k) = x && negb y.
Proof. intros Hx Hy. unfold flipped. rewrite Nat2Z.id, Hx, Hy. by destruct x, y. Qed.

Lemma filter_singleton (p : Z -> bool) (i : Z) (l : list Z) :
  (if p i then [i] else []) ++ List.filter p l = List.filter p (i :: l).
Proof. simpl. by destruct (p i). Qed.

Lemma for_fold_cons {A S} (x : A) (l : list A) (body : A -> S -> M S) (acc : S) :
  for_fold (x :: l) body acc = bind (body x acc) (fun acc' => for_fold l body acc').
Proof. reflexivity. Qed.

(** The loop from frame [k] on: the frames before [k] are committed, the
    others are as they were. *)
Lemma done_loop (W F : list bool) (N num : Z) (m k : nat) (w : Widget) (inc exc : list Z) :
  length W = (k + m)%nat -> length F = (k + m)%nat ->
  index_included w = W ->
  frames w = Frames.mk N num (take k W ++ drop k F) ->
  exists w',
    for_fold (seqZ (Z.of_nat k) (Z.of_nat m)) done_step (inc, exc) w =
      (w', Ok (inc ++ List.filter (flipped W F) (seqZ (Z.of_nat k) (Z.of_nat m)),
               exc ++ List.filter (flipped F W) (seqZ (Z.of_nat k) (Z.of_nat m)))) /\
    index_included w' = W /\
    frames w' = Frames.mk N num W.
Proof.
  revert k w inc exc. induction m as [|m IH]; intros k w inc exc HW HF Hmine Hfr.
  - rewrite seqZ_nil by lia. simpl. exists w. rewrite !app_nil_r.
    split; [done|]. split; [done|].
    rewrite Hfr, take_ge, drop_ge by lia. by rewrite app_nil_r.
  - rewrite seqZ_cons by lia.
    replace (Z.succ (Z.of_nat k)) with (Z.of_nat (S k)) by lia.
    replace (Z.pred (Z.of_nat (S m))) with (Z.of_nat m) by lia.
    destruct (lookup_lt_is_Some_2 W k) as [a Ha]; [lia|].
    destruct (lookup_lt_is_Some_2 F k) as [b Hb]; [lia|].
    assert ((take k W ++ drop k F) !! k = Some b) as Hcur.
    { rewrite lookup_app_r by (rewrite length_take; lia).
      rewrite length_take, Nat.min_l, Nat.sub_diag by lia.
      rewrite lookup_drop. by rewrite Nat.add_0_r. }
    destruct (done_step_in_range w k a b inc exc) as (w1 & Hstep & Hmine1 & Hfr1).
    { by rewrite Hmine. }
    { by rewrite Hfr. }
    destruct (IH (S k) w1
                (inc ++ (if a && negb b then [Z.of_nat k] else []))
                (exc ++ (if negb a && b then [Z.of_nat k] else [])))
      as (w' & Hloop & Hmine' & Hfr'); [lia|lia|congruence| |].
    { rewrite Hfr1, Hfr. simpl. f_equal. apply insert_take_drop; [done|lia]. }
    exists w'. split; [|done].
    rewrite for_fold_cons. unfold bind at 1. rewrite Hstep, Hloop.
    rewrite <- !app_assoc, <- !filter_singleton.
    rewrite (flipped_lookup W F k a b Ha Hb), (flipped_lookup F W k b a Hb Ha).
    by rewrite (andb_comm b).
Qed.

Lemma done_changes_sized (w : Widget) :
  sized (frames w) (index_included w) ->
  sized (frames w) (Frames.index_included (frames w)) ->
  exists w',
    done_changes w =
      (w', Ok (List.filter (flipped (index_included w) (Frames.index_included (frames w)))
                 (range (Frames.number_original (frames w))),
               List.filter (flipped (Frames.index_included (frames w)) (index_included w))
                 (range (Frames.number_original (frames w))))) /\
    index_included w' = index_included w /\
    frames w' = Frames.mk (Frames.number_original (frames w)) (Frames.number (frames w))
                  (index_included w).
Proof.
  unfold sized. intros HW HF. unfold done_changes, range, bind, get.
  destruct (done_loop (index_included w) (Frames.index_included (frames w))
              (Frames.number_original (frames w)) (Frames.number (frames w))
              (length (index_included w)) 0 w [] [])
    as (w' & Hloop & Hrest); [lia|lia|done| |].
  { simpl. rewrite drop_0. by destruct (frames w). }
  exists w'. split; [|done].
  rewrite <- HW. exact Hloop.
Qed.

Lemma bind_ok {A B} (m : M A) (k : A -> M B) (w w1 : Widget) (a : A) :
  m w = (w1, Ok a) -> bind m k w = k a w1.
Proof. intros H. unfold bind. by rewrite H. Qed.

(** After the loop, [done] writes the protocol, emits the signal and closes
    the window: it does not raise and does not touch [frames]. *)
Lemma done_after_changes (w w1 : Widget) (changes : list Z * list Z) :
  done_changes w = (w1, Ok changes) ->
  snd (done w) = Ok tt /\ frames (fst (done w)) = frames w1 /\
  closed (fst (done w)) = true.
Proof.
  intros Hchanges. unfold done. rewrite !(bind_ok _ _ _ _ _ Hchanges).
  destruct changes as [inc exc].
  unfold bind, get, when, log, emit_finished, modify, ret. cbn beta iota.
  destruct (1 <? protocol_level w1), (nonempty inc), (nonempty exc),
    (parent_gui w1); cbn;
    repeat match goal with |- context [if ?c then _ else _] => destruct c end;
    cbn; done.
Qed.

Lemma done_writes_working (w : Widget) :
  sized (frames w) (index_included w) ->
  sized (frames w) (Frames.index_included (frames w)) ->
  snd (done w) = Ok tt /\
  Frames.index_included (frames (fst (done w))) = index_included w.
Proof.
  intros HW HF.
  destruct (done_changes_sized w HW HF) as (w1 & Hchanges & _ & Hfr).
  destruct (done_after_changes w w1 _ Hchanges) as (Hok & Hframes & _).
  split; [exact Hok|]. by rewrite Hframes, Hfr.
Qed.

(** The changes are listed in ascending order. *)
Lemma seqZ_sorted (m : Z) (n : nat) : StronglySorted Z.lt (seqZ m (Z.of_nat n)).
Proof.
  revert m. induction n as [|n IH]; intros m.
  - rewrite seqZ_nil by lia. constructor.
  - rewrite seqZ_cons by lia.
    replace (Z.pred (Z.of_nat (S n))) with (Z.of_nat n) by lia.
    constructor; [apply IH|].
    apply Forall_seqZ. lia.
Qed.

Lemma filter_sorted (p : Z -> bool) (l : list Z) :
  StronglySorted Z.lt l -> StronglySorted Z.lt (List.filter p l).
Proof.
  induction 1 as [|x l Hl IH Hx]; simpl; [constructor|].
  destruct (p x); [|done]. constructor; [done|].
  rewrite Forall_forall in *. intros y Hy.
  apply Hx. apply list_elem_of_In in Hy. apply filter_In in Hy.
  apply list_elem_of_In. tauto.
Qed.

Lemma range_sorted (n : Z) : StronglySorted Z.lt (range n).
Proof.
  unfold range. destruct (Z.le_gt_cases n 0).
  - rewrite seqZ_nil by done. constructor.
  - rewrite <- (Z2Nat.id n) by lia. apply seqZ_sorted.
Qed.

Lemma elem_of_changes (a b : list bool) (n i : Z) :
  i ∈ List.filter (flipped a b) (range n) <->
  0 <= i < n /\ a !! Z.to_nat i = Some true /\ b !! Z.to_nat i = Some false.
Proof.
  rewrite list_elem_of_In, filter_In, <- list_elem_of_In.
  unfold range. rewrite elem_of_seqZ. unfold flipped.
  destruct (a !! Z.to_nat i) as [[]|], (b !! Z.to_nat i) as [[]|];
    intuition (try discriminate; try lia).
Qed.

(** C1: on a widget whose two flag arrays have one flag per frame, the loop
    of [done] yields the indices that went from clear to set and those that
    went from set to clear, each list ascending, the two disjoint and together
    exactly the indices where the working copy differs from the committed
    flags; [done] returns without raising, and when it returns the committed
    flags are the working copy: every change has been written. *)
Theorem done_commits_changes (w : Widget) :
  sized (frames w) (index_included w) ->
  sized (frames w) (Frames.index_included (frames w)) ->
  let working := index_included w in
  let committed := Frames.index_included (frames w) in
  let n := Frames.number_original (frames w) in
  exists included excluded w1,
    done_changes w = (w1, Ok (included, excluded)) /\
    snd (done w) = Ok tt /\
    frames (fst (done w)) = frames w1 /\
    Frames.index_included (frames (fst (done w))) = working /\
    StronglySorted Z.lt included /\
    StronglySorted Z.lt excluded /\
    (forall i, i ∈ included <->
       0 <= i < n /\ working !! Z.to_nat i = Some true /\ committed !! Z.to_nat i = Some false) /\
    (forall i, i ∈ excluded <->
       0 <= i < n /\ working !! Z.to_nat i = Some false /\ committed !! Z.to_nat i = Some true) /\
    (forall i, ~ (i ∈ included /\ i ∈ excluded)) /\
    (forall i, i ∈ included \/ i ∈ excluded <->
       0 <= i < n /\ working !! Z.to_nat i <> committed !! Z.to_nat i).
Proof.
  intros HW HF working committed n.
  destruct (done_changes_sized w HW HF) as (w1 & Hchanges & Hmine & Hfr).
  destruct (done_after_changes w w1 _ Hchanges) as (Hok & Hframes & _).
  fold working committed n in Hchanges.
  eexists _, _, w1. split; [exact Hchanges|].
  split; [exact Hok|]. split; [exact Hframes|].
  split; [by rewrite Hframes, Hfr|].
  split; [apply filter_sorted, range_sorted|].
  split; [apply filter_sorted, range_sorted|].
  split; [intros i; apply elem_of_changes|].
  split; [intros i; rewrite elem_of_changes; tauto|].
  split.
  - intros i. rewrite !elem_of_changes. intros [(_ & H1 & _) (_ & _ & H2)]. congruence.
  - intros i. rewrite !elem_of_changes. unfold sized in HW, HF. split.
    + intros [(Hi & H1 & H2)|(Hi & H1 & H2)]; (split; [done|congruence]).
    + intros [Hi Hne].
      destruct (lookup_lt_is_Some_2 working (Z.to_nat i)) as [a Ha]; [subst working; lia|].
      destruct (lookup_lt_is_Some_2 committed (Z.to_nat i)) as [b Hb]; [subst committed; lia|].
      rewrite Ha, Hb in *. destruct a, b; try congruence; [left|right]; done.
Qed.

Lemma done_commits_changes_witness :
  let w := run [ItemClicked [2; 0]; UseTriggered; ItemClicked [1]; NotUseTriggered] widget4 in
  let working := index_included w in
  let committed := Frames.index_included (frames w) in
  let n := Frames.number_original (frames w) in
  exists included excluded w1,
    done_changes w = (w1, Ok (included, excluded)) /\
    snd (done w) = Ok tt /\
    frames (fst (done w)) = frames w1 /\
    Frames.index_included (frames (fst (done w))) = working /\
    StronglySorted Z.lt included /\
    StronglySorted Z.lt excluded /\
    (forall i, i ∈ included <->
       0 <= i < n /\ working !! Z.to_nat i = Some true /\ committed !! Z.to_nat i = Some false) /\
    (forall i, i ∈ excluded <->
       0 <= i < n /\ working !! Z.to_nat i = Some false /\ committed !! Z.to_nat i = Some true) /\
    (forall i, ~ (i ∈ included /\ i ∈ excluded)) /\
    (forall i, i ∈ included \/ i ∈ excluded <->
       0 <= i < n /\ working !! Z.to_nat i <> committed !! Z.to_nat i).
Proof.
  apply (done_commits_changes
           (run [ItemClicked [2; 0]; UseTriggered; ItemClicked [1]; NotUseTriggered] widget4));
    vm_compute; reflexivity.
Defined.

(** The session of the witness: frame 3 is included, frame 2 is excluded. *)
Example done_changes_example :
  snd (done_changes
         (run [ItemClicked [2; 0]; UseTriggered; ItemClicked [1]; NotUseTriggered] widget4))
  = Ok ([2], [1]).
Proof. vm_compute. reflexivity. Qed.

(** ** The count of included frames *)

Lemma write_committed_keeps_number (index : Z) (flag : bool) :
  keeps (fun w => Frames.number (frames w)) (write_committed index flag).
Proof.
  intros w. unfold write_committed, bind, get, lift, modify.
  by destruct (setitem _ _ _).
Qed.

Lemma done_keeps_number (w : Widget) :
  Frames.number (frames (fst (done w))) = Frames.number (frames w).
Proof.
  apply (keeps_bind (fun w => Frames.number (frames w))).
  - unfold done_changes. keeps_steps. unfold done_step.
    keeps_steps; apply write_committed_keeps_number.
  - intros [inc exc]. unfold log, emit_finished. keeps_steps.
Qed.

(** C3, the counterexample: on four frames of which three are included,
    excluding frame 2 and confirming leaves [number] at 3 with two flags
    set. *)
Lemma done_breaks_number_invariant :
  let w := run [ItemClicked [1]; NotUseTriggered] widget4 in
  number_counts_included (frames w) /\
  snd (done w) = Ok tt /\
  ~ number_counts_included (frames (fst (done w))).
Proof.
  unfold number_counts_included. vm_compute.
  split; [reflexivity|]. split; [reflexivity|]. discriminate.
Qed.

(** C3, as the code has it: the actions of a session and [reject] leave the
    caller's [Frames] object untouched, so they keep the invariant; [done]
    writes the working flags to [frames.index_included] and leaves
    [frames.number] as it was, so after [done] the invariant holds exactly
    when the working copy has as many flags set as the committed array
    had. *)
Theorem number_invariant_of_session (w : Widget) :
  (forall actions, frames (run actions w) = frames w) /\
  frames (fst (reject w)) = frames w /\
  Frames.number (frames (fst (done w))) = Frames.number (frames w) /\
  (sized (frames w) (index_included w) ->
   sized (frames w) (Frames.index_included (frames w)) ->
   number_counts_included (frames w) ->
   Frames.index_included (frames (fst (done w))) = index_included w /\
   (number_counts_included (frames (fst (done w))) <->
    py_sum (index_included w) = py_sum (Frames.index_included (frames w)))).
Proof.
  split; [intros actions; apply run_keeps, session_field_frames|].
  split; [apply reject_keeps_frames|].
  split; [apply done_keeps_number|].
  intros HW HF Hinv.
  destruct (done_writes_working w HW HF) as [_ Hflags].
  split; [exact Hflags|].
  unfold number_counts_included in *.
  rewrite done_keeps_number, Hflags, Hinv. done.
Qed.

Lemma number_invariant_of_session_witness :
  let w := run [ItemClicked [1]; NotUseTriggered] widget4 in
  Frames.index_included (frames (fst (done w))) = index_included w /\
  (number_counts_included (frames (fst (done w))) <->
   py_sum (index_included w) = py_sum (Frames.index_included (frames w))).
Proof.
  apply (number_invariant_of_session (run [ItemClicked [1]; NotUseTriggered] widget4));
    unfold number_counts_included; vm_compute; reflexivity.
Defined.

(** ** Showing a photo *)

Lemma setPhoto_in_range (w : Widget) (i : Z) (a : bool) :
  0 <= i -> index_included w !! Z.to_nat i = Some a ->
  setPhoto i w =
    (set_frame_selector
       (mkViewer false (photos (frame_selector w) ++ [(i, negb a)]))
       (set_frame_selector (mkViewer true (photos (frame_selector w))) w), Ok tt).
Proof.
  intros Hi Ha. unfold setPhoto, FrameViewer_setPhoto, bind, modify, get, lift. simpl.
  by rewrite (getitem_in_range _ _ a Hi Ha).
Qed.

Lemma setPhoto_returns (w : Widget) (i : Z) :
  0 <= i < Z.of_nat (length (index_included w)) ->
  exists w', setPhoto i w = (w', Ok tt) /\
    index_included w' = index_included w /\
    items_selected w' = items_selected w /\
    indices_selected w' = indices_selected w /\
    frame_index w' = frame_index w /\
    frames w' = frames w.
Proof.
  intros Hi. destruct (lookup_lt_is_Some_2 (index_included w) (Z.to_nat i)) as [a Ha]; [lia|].
  eexists. split; [apply (setPhoto_in_range w i a); [lia|done]|]. done.
Qed.

(** ** Selecting *)

Lemma map_row (rows : list Item) : map row rows = rows.
Proof. induction rows as [|r rows IH]; simpl; [done|]. by rewrite IH. Qed.

Lemma select_items_nil (w : Widget) :
  select_items [] w =
    (set_indices_selected (Some []) (set_items_selected (Some []) w), Raise IndexError).
Proof. reflexivity. Qed.

Lemma select_items_cons (first : Item) (rest : list Item) (w : Widget) :
  select_items (first :: rest) w =
    setPhoto first
      (set_slider_frames (setValue (first + 1) (slider_frames w))
         (set_frame_index first
            (set_indices_selected (Some (first :: rest))
               (set_items_selected (Some (first :: rest)) w)))).
Proof.
  unfold select_items, bind, modify, get, lift, subscript, getitem, py_index. simpl.
  rewrite map_row.
  destruct (Z.ltb_spec 0 (Z.pos (Pos.of_succ_nat (length rest)))); [|lia].
  reflexivity.
Qed.

Lemma least_of_sorted (first : Z) (rest : list Z) :
  StronglySorted Z.le (first :: rest) -> least (first :: rest) = Some first.
Proof.
  intros Hsorted. apply StronglySorted_inv in Hsorted as [_ Hle].
  simpl. f_equal. induction Hle as [|x l Hx _ IH]; simpl; [done|].
  by rewrite Z.min_l.
Qed.

(** C5, the counterexample: with frames 3 and 1 selected in this order, the
    current index becomes 2, the first of the selection, and not 0, its
    least element. *)
Lemma select_items_not_least :
  let w' := fst (select_items [2; 0] widget4) in
  snd (select_items [2; 0] widget4) = Ok tt /\
  indices_selected w' = Some [2; 0] /\
  frame_index w' = 2 /\
  least [2; 0] = Some 0 /\
  Some (frame_index w') <> least [2; 0].
Proof. vm_compute. repeat split; discriminate. Qed.

Lemma select_items_fields (rows : list Item) (w : Widget) :
  let w' := fst (select_items rows w) in
  items_selected w' = Some rows /\
  indices_selected w' = Some rows /\
  match rows with
  | [] =>
      snd (select_items rows w) = Raise IndexError /\
      frame_index w' = frame_index w
  | first :: _ =>
      frame_index w' = first /\
      (0 <= first < Z.of_nat (length (index_included w)) ->
       snd (select_items rows w) = Ok tt)
  end.
Proof.
  destruct rows as [|first rest].
  - rewrite select_items_nil. simpl. done.
  - rewrite select_items_cons. simpl.
    set (w1 := set_slider_frames _ _).
    assert (items_selected (fst (setPhoto first w1)) = Some (first :: rest)) as ->.
    { by rewrite (setPhoto_keeps items_selected). }
    assert (indices_selected (fst (setPhoto first w1)) = Some (first :: rest)) as ->.
    { by rewrite (setPhoto_keeps indices_selected). }
    assert (frame_index (fst (setPhoto first w1)) = first) as ->.
    { by rewrite (setPhoto_keeps frame_index). }
    split; [done|]. split; [done|]. split; [done|].
    intros Hfirst.
    destruct (setPhoto_returns w1 first) as (w' & -> & _); done.
Qed.

(** C5, as the code has it: [select_items] replaces the selection by what
    the list widget reports; when that is not empty, the current index
    becomes its first element (its least element when the rows come in
    ascending order) and the slot returns if that is a row of the list; when
    it is empty, the slot raises [IndexError] with the selection replaced and
    the current index as it was. *)
Theorem select_items_takes_first (rows : list Item) (w : Widget) :
  let w' := fst (select_items rows w) in
  items_selected w' = Some rows /\
  indices_selected w' = Some rows /\
  match rows with
  | [] =>
      snd (select_items rows w) = Raise IndexError /\
      frame_index w' = frame_index w
  | first :: _ =>
      frame_index w' = first /\
      (0 <= first < Z.of_nat (length (index_included w)) ->
       snd (select_items rows w) = Ok tt) /\
      (StronglySorted Z.le rows -> least rows = Some (frame_index w'))
  end.
Proof.
  destruct (select_items_fields rows w) as (Hitems & Hindices & Hrows).
  split; [exact Hitems|]. split; [exact Hindices|].
  destruct rows as [|first rest]; [exact Hrows|].
  destruct Hrows as [Hfirst Hreturns].
  split; [exact Hfirst|]. split; [exact Hreturns|].
  rewrite Hfirst. apply least_of_sorted.
Qed.

Lemma select_items_takes_first_witness :
  let w' := fst (select_items [0; 2] widget4) in
  snd (select_items [0; 2] widget4) = Ok tt /\
  least [0; 2] = Some (frame_index w').
Proof.
  destruct (select_items_takes_first [0; 2] widget4) as (_ & _ & _ & Hreturns & Hleast).
  split.
  - apply Hreturns. vm_compute (length _). lia.
  - apply Hleast. repeat constructor; lia.
Defined.

(** ** Marking the selected frames *)

Lemma getitem_app_middle {A} (pre rest : list A) (x : A) :
  getitem (pre ++ x :: rest) (Z.of_nat (length pre)) = Ok x.
Proof.
  apply getitem_in_range; [lia|].
  rewrite Nat2Z.id. by rewrite list_lookup_middle.
Qed.

Lemma written_length flag rows flags : length (written flag rows flags) = length flags.
Proof.
  revert flags. induction rows as [|r rows IH]; intros flags; simpl; [done|].
  unfold written in *. simpl. by rewrite IH, length_insert.
Qed.

Lemma mark_item_in_range (flag : bool) (w : Widget) (item : Item)
    (pre rest : list Z) (r : Z) :
  indices_selected w = Some (pre ++ r :: rest) ->
  0 <= r < Z.of_nat (length (index_included w)) ->
  0 <= frame_index w < Z.of_nat (length (index_included w)) ->
  exists w',
    mark_item flag (Z.of_nat (length pre), item) w = (w', Ok tt) /\
    index_included w' = <[Z.to_nat r := flag]> (index_included w) /\
    items_selected w' = items_selected w /\
    indices_selected w' = indices_selected w /\
    frame_index w' = frame_index w /\
    frames w' = frames w.
Proof.
  intros Hsel Hr Hcur. unfold mark_item, bind, get, lift, modify.
  rewrite Hsel. simpl. rewrite getitem_app_middle.
  rewrite setitem_in_range by done.
  destruct (setPhoto_returns
              (set_index_included (<[Z.to_nat r := flag]> (index_included w)) w)
              (frame_index w))
    as (w' & Hphoto & Hflags & Hitems & Hindices & Hindex & Hframes).
  { simpl. rewrite length_insert. lia. }
  simpl in *. rewrite Hphoto. exists w'. by rewrite Hindices, Hsel.
Qed.

Lemma for_each_cons {A} (x : A) (l : list A) (body : A -> M unit) :
  for_each (x :: l) body = bind (body x) (fun _ => for_each l body).
Proof. reflexivity. Qed.

Lemma enumerate_from_cons {A} (k : Z) (x : A) (l : list A) :
  enumerate_from k (x :: l) = (k, x) :: enumerate_from (k + 1) l.
Proof. reflexivity. Qed.

Lemma mark_loop (flag : bool) (rest pre : list Z) (items : list Item) (w : Widget) :
  length items = length rest ->
  indices_selected w = Some (pre ++ rest) ->
  Forall (fun r => 0 <= r < Z.of_nat (length (index_included w))) rest ->
  0 <= frame_index w < Z.of_nat (length (index_included w)) ->
  exists w',
    for_each (enumerate_from (Z.of_nat (length pre)) items) (mark_item flag) w = (w', Ok tt) /\
    index_included w' = written flag rest (index_included w) /\
    items_selected w' = items_selected w /\
    indices_selected w' = indices_selected w /\
    frame_index w' = frame_index w /\
    frames w' = frames w.
Proof.
  revert pre items w. induction rest as [|r rest IH]; intros pre items w Hlen Hsel Hrows Hcur.
  - destruct items; [|discriminate]. exists w. done.
  - destruct items as [|item items]; [discriminate|].
    apply Forall_cons in Hrows as [Hr Hrows].
    destruct (mark_item_in_range flag w item pre rest r Hsel Hr Hcur)
      as (w1 & Hstep & Hflags & Hitems & Hindices & Hindex & Hframes).
    destruct (IH (pre ++ [r]) items w1) as (w' & Hloop & Hrest).
    + simpl in Hlen. lia.
    + by rewrite Hindices, Hsel, <- app_assoc.
    + by rewrite Hflags, length_insert.
    + by rewrite Hflags, length_insert, Hindex.
    + exists w'. rewrite enumerate_from_cons, for_each_cons.
      unfold bind at 1. rewrite Hstep.
      rewrite length_app in Hloop. simpl in Hloop.
      replace (Z.of_nat (length pre) + 1) with (Z.of_nat (length pre + 1)) by lia.
      rewrite Hloop. split; [done|].
      destruct Hrest as (-> & -> & -> & -> & ->).
      by rewrite Hflags, Hitems, Hindices, Hindex, Hframes.
Qed.

(** Written one after the other or all at once: the same flags. *)
Lemma lookup_insert_same {A} (l : list A) (k : nat) (x : A) :
  <[k := x]> l !! k = const x <$> l !! k.
Proof.
  destruct (decide (k < length l)%nat) as [Hlt|Hge].
  - rewrite list_lookup_insert_eq by done.
    by destruct (lookup_lt_is_Some_2 l k Hlt) as [y ->].
  - rewrite list_insert_ge by lia. by rewrite lookup_ge_None_2 by lia.
Qed.

Lemma lookup_insert_const {A} (l : list A) (k i : nat) (x : A) :
  const x <$> (<[k := x]> l !! i) = const x <$> l !! i.
Proof.
  destruct (decide (k = i)) as [->|Hne].
  - rewrite lookup_insert_same. by destruct (l !! i).
  - by rewrite list_lookup_insert_ne.
Qed.

Lemma written_lookup (flag : bool) (rows : list Z) (flags : list bool) (i : nat) :
  Forall (fun r => 0 <= r) rows ->
  written flag rows flags !! i =
    if decide (Z.of_nat i ∈ rows) then const flag <$> flags !! i else flags !! i.
Proof.
  revert flags. induction rows as [|r rows IH]; intros flags Hrows.
  - unfold written. cbn [foldl]. by rewrite decide_False by apply not_elem_of_nil.
  - apply Forall_cons in Hrows as [Hr Hrows]. unfold written in *. cbn [foldl].
    rewrite IH by done.
    destruct (decide (Z.of_nat i ∈ rows)) as [Hin|Hnin].
    + rewrite decide_True by (by right). apply lookup_insert_const.
    + destruct (decide (r = Z.of_nat i)) as [->|Hne].
      * rewrite decide_True by left. rewrite Nat2Z.id. apply lookup_insert_same.
      * rewrite decide_False by (intros [Heq|Hin]%elem_of_cons; done).
        apply list_lookup_insert_ne. lia.
Qed.

Lemma written_spec (flag : bool) (rows : list Z) (flags : list bool) :
  Forall (fun r => 0 <= r) rows ->
  written flag rows flags =
    working_inclusion (mark_selected_spec flag (mkSelection flags rows)).
Proof.
  intros Hrows. apply list_eq. intros i. simpl.
  rewrite written_lookup, list_lookup_imap by done.
  destruct (flags !! i); simpl; by case_decide.
Qed.

Lemma mark_selected_nothing (flag : bool) (w : Widget) :
  truthy (items_selected w) = false -> mark_selected flag w = (w, Ok tt).
Proof. intros H. unfold mark_selected, bind, get, when. by rewrite H. Qed.

Lemma mark_selected_spec_nothing (flag : bool) (flags : list bool) :
  mark_selected_spec flag (mkSelection flags []) = mkSelection flags [].
Proof.
  unfold mark_selected_spec. cbn [working_inclusion selected_indices]. f_equal.
  apply list_eq. intros i. rewrite list_lookup_imap.
  destruct (flags !! i); cbn [fmap option_fmap option_map]; [|done].
  by rewrite decide_False by apply not_elem_of_nil.
Qed.

Lemma editing_rows (w : Widget) :
  editing w ->
  Forall (fun r => 0 <= r < Z.of_nat (length (index_included w)))
    (default [] (indices_selected w)).
Proof.
  intros (Hsized & _ & Hrows & _). unfold sized in Hsized. rewrite Hsized.
  by apply valid_rows_spec.
Qed.

Lemma mark_selected_editing (flag : bool) (w : Widget) :
  editing w ->
  exists w',
    mark_selected flag w = (w', Ok tt) /\
    selection_of w' = mark_selected_spec flag (selection_of w) /\
    editing w'.
Proof.
  intros Hed. pose proof (editing_rows w Hed) as Hrows.
  destruct Hed as (Hsized & Hpair & Hvalid & Hcur).
  unfold sized, index_in_range in *.
  destruct (truthy (items_selected w)) eqn:Htruthy.
  - destruct (items_selected w) as [[|item items]|] eqn:Hitems; try discriminate.
    destruct (mark_loop flag (item :: items) [] (item :: items) w)
      as (w' & Hloop & Hflags & Hitems' & Hindices & Hindex & Hframes);
      [done|by rewrite <- Hpair| |lia|].
    { by rewrite <- Hpair in Hrows. }
    exists w'. split; [|split].
    + unfold mark_selected, bind, get, when. rewrite Hitems. simpl truthy. cbv iota.
      exact Hloop.
    + unfold selection_of. rewrite Hindices, Hflags, <- Hpair. simpl default.
      rewrite written_spec; [done|].
      rewrite <- Hpair in Hrows. simpl in Hrows.
      eapply Forall_impl; [exact Hrows|]. simpl. lia.
    + unfold editing, sized, index_in_range.
      rewrite Hflags, written_length, Hitems', Hindices, Hindex, Hframes, Hitems.
      tauto.
  - exists w. rewrite mark_selected_nothing by done. split; [done|]. split.
    + unfold selection_of. rewrite <- Hpair.
      destruct (items_selected w) as [[|item items]|]; try discriminate;
        simpl; by rewrite mark_selected_spec_nothing.
    + unfold editing, sized, index_in_range. tauto.
Qed.

(** ** Editing sessions *)

Lemma editing_same_fields (w w' : Widget) :
  index_included w' = index_included w ->
  items_selected w' = items_selected w ->
  indices_selected w' = indices_selected w ->
  frame_index w' = frame_index w ->
  frames w' = frames w ->
  editing w -> editing w' /\ selection_of w' = selection_of w.
Proof.
  intros Hflags Hitems Hindices Hindex Hframes.
  unfold editing, sized, index_in_range, selection_of.
  rewrite Hflags, Hitems, Hindices, Hindex, Hframes. tauto.
Qed.

Lemma editing_selected (w w' : Widget) (first : Z) (rest : list Z) :
  index_included w' = index_included w ->
  items_selected w' = Some (first :: rest) ->
  indices_selected w' = Some (first :: rest) ->
  frame_index w' = first ->
  frames w' = frames w ->
  valid_rows (Frames.number_original (frames w)) (first :: rest) = true ->
  editing w ->
  editing w' /\ selection_of w' = set_selection_spec (first :: rest) (selection_of w).
Proof.
  intros Hflags Hitems Hindices Hindex Hframes Hvalid (Hsized & _).
  unfold editing, sized, index_in_range, selection_of, set_selection_spec in *.
  rewrite Hflags, Hitems, Hindices, Hindex, Hframes. simpl default.
  pose proof Hvalid as Hrows. apply valid_rows_spec, Forall_cons in Hrows as [Hfirst _].
  repeat split; try done; lia.
Qed.

Lemma select_items_editing (first : Item) (rest : list Item) (w : Widget) :
  editing w ->
  valid_rows (Frames.number_original (frames w)) (first :: rest) = true ->
  exists w',
    select_items (first :: rest) w = (w', Ok tt) /\
    editing w' /\
    selection_of w' = set_selection_spec (first :: rest) (selection_of w) /\
    frame_index w' = first /\
    index_included w' = index_included w.
Proof.
  intros Hed Hvalid. rewrite select_items_cons.
  set (w1 := set_slider_frames _ _).
  pose proof Hvalid as Hrows. apply valid_rows_spec, Forall_cons in Hrows as [Hfirst _].
  destruct (setPhoto_returns w1 first)
    as (w' & Hphoto & Hflags & Hitems & Hindices & Hindex & Hframes).
  { destruct Hed as (Hsized & _). unfold sized in Hsized. simpl. lia. }
  exists w'. split; [done|].
  destruct (editing_selected w w' first rest) as [Hed' Hsel];
    [by rewrite Hflags|by rewrite Hitems|by rewrite Hindices|by rewrite Hindex
    |by rewrite Hframes|done|done|].
  split; [done|]. split; [done|]. split; [by rewrite Hindex|by rewrite Hflags].
Qed.

Lemma exec_editing (a : action) (w : Widget) :
  editing w ->
  edit_action (Frames.number_original (frames w)) a = true ->
  snd (exec a w) = Ok tt /\
  editing (fst (exec a w)) /\
  selection_of (fst (exec a w)) = replay_action (selection_of w) a.
Proof.
  intros Hed Hvalid. destruct a as [rows| | | |position rows| | | |busy|index];
    cbn [edit_action] in Hvalid; try discriminate.
  - destruct rows as [|first rest]; [discriminate|]. cbn [nonempty andb] in Hvalid.
    destruct (select_items_editing first rest w Hed Hvalid) as (w' & Hsel & Hed' & Hspec & _).
    cbn [exec]. rewrite Hsel. done.
  - simpl. split; [done|].
    destruct Hed as (Hsized & Hpair & Hrows & Hcur).
    unfold editing, sized, index_in_range, selection_of, set_selection_spec in *.
    simpl. tauto.
  - destruct (mark_selected_editing true w Hed) as (w' & Hmark & Hspec & Hed').
    cbn [exec]. unfold use_triggered. rewrite Hmark. done.
  - destruct (mark_selected_editing false w Hed) as (w' & Hmark & Hspec & Hed').
    cbn [exec]. unfold not_use_triggered. rewrite Hmark. done.
  - destruct rows as [|first rest]; [discriminate|]. cbn [nonempty andb] in Hvalid.
    set (ws := set_slider_frames (setValue position (slider_frames w)) w).
    set (w0 := set_frame_index (value (slider_frames ws) - 1) ws).
    destruct (setPhoto_returns
                (set_slider_frames (setValue (first + 1) (slider_frames w0))
                   (set_frame_index first
                      (set_indices_selected (Some (first :: rest))
                         (set_items_selected (Some (first :: rest)) w0)))) first)
      as (w1 & Hphoto1 & Hflags1 & Hitems1 & Hindices1 & Hindex1 & Hframes1).
    { pose proof Hvalid as Hrows.
      apply valid_rows_spec, Forall_cons in Hrows as [Hfirst _].
      destruct Hed as (Hsized & _). unfold sized in Hsized. simpl. lia. }
    destruct (setPhoto_returns w1 (frame_index w1))
      as (w2 & Hphoto2 & Hflags2 & Hitems2 & Hindices2 & Hindex2 & Hframes2).
    { rewrite Hindex1, Hflags1. simpl.
      pose proof Hvalid as Hrows.
      apply valid_rows_spec, Forall_cons in Hrows as [Hfirst _].
      destruct Hed as (Hsized & _). unfold sized in Hsized. lia. }
    assert (exec (SliderMoved position (first :: rest)) w = (w2, Ok tt)) as ->.
    { cbn [exec]. unfold slider_frames_changed, bind at 1 2, modify. fold ws w0.
      rewrite (bind_ok _ _ w0 w1 tt) by (by rewrite select_items_cons).
      unfold bind, get. exact Hphoto2. }
    split; [done|]. simpl fst.
    subst w0 ws. simpl in *.
    apply (editing_selected w w2 first rest); try done; try congruence;
      [rewrite Hitems2; exact Hitems1|rewrite Hindices2; exact Hindices1].
  - simpl. split; [done|]. by apply editing_same_fields.
  - simpl. split; [done|]. by apply editing_same_fields.
Qed.

Lemma run_cons (a : action) (actions : list action) (w : Widget) :
  run (a :: actions) w = run actions (fst (exec a w)).
Proof. reflexivity. Qed.

Lemma run_editing (actions : list action) (w : Widget) :
  editing w ->
  forallb (edit_action (Frames.number_original (frames w))) actions = true ->
  editing (run actions w) /\
  selection_of (run actions w) = replay actions (selection_of w).
Proof.
  revert w. induction actions as [|a actions IH]; intros w Hed Hvalid; [done|].
  simpl in Hvalid. apply andb_true_iff in Hvalid as [Ha Hvalid].
  destruct (exec_editing a w Hed Ha) as (_ & Hed' & Hsel).
  rewrite run_cons. unfold replay. simpl fold_left. fold (replay actions).
  rewrite <- Hsel. apply IH; [done|].
  rewrite (exec_keeps frames a session_field_frames w). done.
Qed.

(** C2: in an editing session every call of [use_triggered] and
    [not_use_triggered] returns with the working flags set (cleared) at the
    selected indices and as they were elsewhere; the flags after a session
    are those of replaying its actions on the specification's selection
    state; and a call with nothing selected changes nothing. *)
Theorem marking_replays (w : Widget) :
  (editing w ->
   (exists w', use_triggered w = (w', Ok tt) /\
      selection_of w' = include_selected_spec (selection_of w)) /\
   (exists w', not_use_triggered w = (w', Ok tt) /\
      selection_of w' = exclude_selected_spec (selection_of w)) /\
   (forall actions,
      forallb (edit_action (Frames.number_original (frames w))) actions = true ->
      index_included (run actions w) =
        working_inclusion (replay actions (selection_of w)))) /\
  (truthy (items_selected w) = false ->
   use_triggered w = (w, Ok tt) /\ not_use_triggered w = (w, Ok tt)).
Proof.
  split.
  - intros Hed. split; [|split].
    + destruct (mark_selected_editing true w Hed) as (w' & Hmark & Hspec & _).
      by exists w'.
    + destruct (mark_selected_editing false w Hed) as (w' & Hmark & Hspec & _).
      by exists w'.
    + intros actions Hvalid.
      destruct (run_editing actions w Hed Hvalid) as [_ <-]. done.
  - intros Hnothing. split; by apply mark_selected_nothing.
Qed.

Lemma editing_widget4 : editing widget4.
Proof. repeat split; by vm_compute. Qed.

Lemma marking_replays_witness :
  let actions := [ItemClicked [2; 0]; UseTriggered; ItemClicked [1]; NotUseTriggered] in
  (exists w', use_triggered widget4 = (w', Ok tt) /\
     selection_of w' = include_selected_spec (selection_of widget4)) /\
  (exists w', not_use_triggered widget4 = (w', Ok tt) /\
     selection_of w' = exclude_selected_spec (selection_of widget4)) /\
  index_included (run actions widget4) =
    working_inclusion (replay actions (selection_of widget4)) /\
  use_triggered widget4 = (widget4, Ok tt) /\
  not_use_triggered widget4 = (widget4, Ok tt).
Proof.
  destruct (marking_replays widget4) as [Hediting Hnothing].
  destruct (Hediting editing_widget4) as (Huse & Hnot & Hrun).
  split; [exact Huse|]. split; [exact Hnot|].
  split; [apply Hrun; vm_compute; reflexivity|].
  apply Hnothing. vm_compute. reflexivity.
Defined.

(** The session of the witness: frame 3 is included and frame 2 excluded. *)
Example marking_example :
  index_included
    (run [ItemClicked [2; 0]; UseTriggered; ItemClicked [1]; NotUseTriggered] widget4)
  = [true; false; true; true].
Proof. vm_compute. reflexivity. Qed.

(** ** A widget just opened is ready for editing *)

Lemma bind_returns {A B} (m : M A) (k : A -> M B) (w w' : Widget) (b : B) :
  bind m k w = (w', Ok b) ->
  exists w1 a, m w = (w1, Ok a) /\ k a w1 = (w', Ok b).
Proof.
  unfold bind. destruct (m w) as [w1 [a|e]]; [|discriminate].
  intros H. by exists w1, a.
Qed.

Lemma keeps_result {X A} (f : Widget -> X) (m : M A) (w w' : Widget) (r : result A) :
  m w = (w', r) -> keeps f m -> f w' = f w.
Proof. intros H Hk. specialize (Hk w). by rewrite H in Hk. Qed.

Lemma setPhoto_returned (index : Z) (w w' : Widget) :
  setPhoto index w = (w', Ok tt) ->
  (exists k, py_index (length (index_included w)) index = Some k) /\
  frame_index w' = frame_index w.
Proof.
  intros H. split.
  - unfold setPhoto, FrameViewer_setPhoto, bind, modify, get, lift, getitem in H.
    simpl in H. destruct (py_index _ _) as [k|]; [by exists k|discriminate].
  - pose proof (setPhoto_keeps frame_index index ltac:(done) w) as Hk.
    by rewrite H in Hk.
Qed.

Lemma init_editing parent level fr ui w :
  sized fr (Frames.index_included fr) ->
  init parent level fr ui = Ok w -> editing w.
Proof.
  intros Hsized Hinit.
  pose proof (init_leaves frames _ _ _ _ _ ltac:(done) ltac:(done) ltac:(done)
                ltac:(done) Hinit) as Hfr.
  pose proof (init_leaves index_included _ _ _ _ _ ltac:(done) ltac:(done) ltac:(done)
                ltac:(done) Hinit) as Hflags.
  pose proof (init_leaves items_selected _ _ _ _ _ ltac:(done) ltac:(done) ltac:(done)
                ltac:(done) Hinit) as Hitems.
  pose proof (init_leaves indices_selected _ _ _ _ _ ltac:(done) ltac:(done) ltac:(done)
                ltac:(done) Hinit) as Hindices.
  simpl in Hfr, Hflags, Hitems, Hindices.
  unfold init in Hinit.
  destruct (init_body _) as [w' [[]|e]] eqn:Hbody; [|discriminate].
  injection Hinit as ->.
  unfold init_body in Hbody.
  apply bind_returns in Hbody as (w1 & n & Hn & Hbody).
  apply bind_returns in Hbody as (w2 & [] & Hloop & Hbody).
  apply bind_returns in Hbody as (w3 & [] & Hzero & Hbody).
  apply bind_returns in Hbody as (w4 & index & Hget & Hbody).
  apply bind_returns in Hbody as (w5 & [] & Hphoto & Hbody).
  injection Hn as <- <-. injection Hzero as <-. injection Hget as <- <-.
  apply setPhoto_returned in Hphoto as [[k Hk] Hindex]. simpl in Hk, Hindex.
  apply py_index_lt in Hk.
  assert (index_included w2 = Frames.index_included fr) as Hkeep.
  { eapply (keeps_result index_included) in Hloop; [exact Hloop|]. keeps_steps. }
  rewrite Hkeep in Hk.
  assert (frame_index w = 0) as Hcurrent.
  { rewrite <- Hindex.
    eapply (keeps_result frame_index) in Hbody; [exact Hbody|].
    unfold log. keeps_steps. }
  unfold editing, sized, index_in_range in *.
  rewrite Hfr, Hflags, Hitems, Hindices, Hcurrent. simpl.
  repeat split; try done; try lia.
Qed.

(** ** The playback loop *)

Lemma run_app (actions1 actions2 : list action) (w : Widget) :
  run (actions1 ++ actions2) w = run actions2 (run actions1 w).
Proof. unfold run. apply fold_left_app. Qed.

(** A property kept by every admitted action is kept by a session. *)
Lemma run_invariant (P : Widget -> Prop) (admitted : action -> bool) :
  (forall a w, admitted a = true -> P w -> P (fst (exec a w))) ->
  forall actions w, forallb admitted actions = true -> P w -> P (run actions w).
Proof.
  intros Hstep actions. induction actions as [|a actions IH]; intros w Hadm HP; [done|].
  simpl in Hadm. apply andb_true_iff in Hadm as [Ha Hadm].
  rewrite run_cons. apply IH; [done|]. by apply Hstep.
Qed.

Lemma player_steps_cons (a : action) (actions : list action) :
  player_steps (a :: actions) =
    (if is_player_step a then S (player_steps actions) else player_steps actions).
Proof. unfold player_steps. simpl. by destruct (is_player_step a). Qed.

Lemma unmoved_refl (w : Widget) : unmoved w w.
Proof. by repeat split. Qed.

Lemma finished_kept (w0 : Widget) (a : action) (w : Widget) :
  playback_event a = true ->
  finished w /\ unmoved w0 w -> finished (fst (exec a w)) /\ unmoved w0 (fst (exec a w)).
Proof.
  unfold finished, unmoved. intros Ha [(Hat & Hrun & Hdis) Hun].
  destruct a; try discriminate; simpl; [done| |done].
  unfold play_step. by rewrite Hat.
Qed.

Lemma at_last_test_event (w0 : Widget) (a : action) (w : Widget) :
  playback_event a = true -> at_last_test w0 w ->
  if is_player_step a
  then finished (fst (exec a w)) /\ unmoved w0 (fst (exec a w))
  else at_last_test w0 (fst (exec a w)).
Proof.
  unfold at_last_test, finished, unmoved. intros Ha (Hat & Hlast & Hun).
  destruct a; try discriminate; simpl; [done| |done].
  unfold play_step. rewrite Hat.
  destruct (Z.ltb_spec (frame_index w) (Frames.number_original (frames w) - 1)); [lia|].
  simpl. done.
Qed.

Lemma at_last_test_run (w0 : Widget) (actions : list action) (w : Widget) :
  forallb playback_event actions = true -> at_last_test w0 w ->
  (at_last_test w0 (run actions w) \/ finished (run actions w)) /\
  unmoved w0 (run actions w) /\
  ((1 <= player_steps actions)%nat -> finished (run actions w)).
Proof.
  revert w. induction actions as [|a actions IH]; intros w Hev Hw.
  - simpl. split; [by left|]. split; [apply Hw|]. unfold player_steps. simpl. lia.
  - simpl in Hev. apply andb_true_iff in Hev as [Ha Hev].
    rewrite run_cons, player_steps_cons.
    pose proof (at_last_test_event w0 a w Ha Hw) as Hnext.
    destruct (is_player_step a).
    + pose proof (run_invariant (fun x => finished x /\ unmoved w0 x) playback_event
                    (finished_kept w0) actions _ Hev Hnext) as [Hfin Hun].
      split; [by right|]. done.
    + apply IH; done.
Qed.

(** C6: started with the current index at the last frame, [play] leaves the
    loop at the first step of its thread, whatever the stop button and the
    viewer do meanwhile: the body is never entered (the thread is at the test
    or out of the loop, no [sleep] is made), the index and the slider are not
    moved, no index is emitted and no photo shown; with the first step the
    run flag is cleared and the GUI elements are released. *)
Theorem play_at_last_frame_stops (w : Widget) (events : list action) :
  frame_index w = Frames.number_original (frames w) - 1 ->
  forallb playback_event events = true ->
  let w' := run events (play_begin w) in
  frame_index w' = frame_index w /\
  set_photo_signal (frame_player w') = set_photo_signal (frame_player w) /\
  photos (frame_selector w') = photos (frame_selector w) /\
  value (slider_frames w') = value (slider_frames w) /\
  sleeps (frame_player w') = sleeps (frame_player w) /\
  (at_line (frame_player w') = AtTest \/ at_line (frame_player w') = Stopped) /\
  ((1 <= player_steps events)%nat ->
   at_line (frame_player w') = Stopped /\
   run_player (frame_player w') = false /\
   elements_disabled (frame_player w') = false).
Proof.
  intros Hlast Hev w'.
  destruct (at_last_test_run (play_begin w) events (play_begin w) Hev)
    as (Hat & Hun & Hfin).
  { split; [done|]. split; [simpl; lia|apply unmoved_refl]. }
  destruct Hun as (Hidx & Hsig & Hsl & Hval & Hph & _). fold w' in Hidx, Hsig, Hsl, Hval, Hph.
  split; [exact Hidx|]. split; [exact Hsig|]. split; [exact Hph|].
  split; [exact Hval|]. split; [exact Hsl|].
  split; [|exact Hfin].
  destruct Hat as [(Hat & _)|(Hat & _)]; [by left|by right].
Qed.

Lemma play_at_last_frame_stops_witness :
  let events := [ImageLoading true; PlayerStep; StopClicked; PlayerStep] in
  let w := run [ItemClicked [3]] widget4 in
  let w' := run events (play_begin w) in
  frame_index w' = frame_index w /\
  set_photo_signal (frame_player w') = set_photo_signal (frame_player w) /\
  photos (frame_selector w') = photos (frame_selector w) /\
  value (slider_frames w') = value (slider_frames w) /\
  sleeps (frame_player w') = sleeps (frame_player w) /\
  (at_line (frame_player w') = AtTest \/ at_line (frame_player w') = Stopped) /\
  at_line (frame_player w') = Stopped /\
  run_player (frame_player w') = false /\
  elements_disabled (frame_player w') = false.
Proof.
  pose proof (play_at_last_frame_stops (run [ItemClicked [3]] widget4)
                [ImageLoading true; PlayerStep; StopClicked; PlayerStep]) as H.
  cbv zeta in *.
  destruct H as (H1 & H2 & H3 & H4 & H5 & H6 & H7);
    [vm_compute; reflexivity|reflexivity|].
  repeat (split; [assumption|]). apply H7. vm_compute. lia.
Defined.

Lemma seqZ_snoc (m j : Z) : 0 <= j -> seqZ m (j + 1) = seqZ m j ++ [m + j].
Proof.
  intros Hj. rewrite seqZ_app by lia. reflexivity.
Qed.

(** *** Schedules with the slots of the GUI thread *)



Lemma setPhoto_ends_load (index : Z) (w : Widget) :
  0 <= index < Z.of_nat (length (index_included w)) ->
  image_loading_busy (frame_selector (fst (setPhoto index w))) = false.
Proof.
  intros Hindex.
  destruct (lookup_lt_is_Some_2 (index_included w) (Z.to_nat index)) as [b Hb]; [lia|].
  by rewrite (setPhoto_in_range w index b) by (lia || done).
Qed.

(** [slider_frames_changed] ends with the index at the first row of the
    selection, whatever the slider said. *)
Lemma slider_moved_first (position : Z) (first : Item) (rest : list Item) (w : Widget) :
  frame_index (fst (exec (SliderMoved position (first :: rest)) w)) = first.
Proof.
  cbn [exec]. unfold slider_frames_changed, bind at 1 2, modify.
  set (ws := set_slider_frames (setValue position (slider_frames w)) w).
  set (w0 := set_frame_index (value (slider_frames ws) - 1) ws).
  rewrite (bind_keeps_after frame_index).
  - by destruct (select_items_fields (first :: rest) w0) as (_ & _ & Hidx & _).
  - intros _. apply keeps_bind; [apply keeps_get|]. intros index. by apply setPhoto_keeps.
Qed.

Lemma slider_moved_ends_load (position : Z) (first : Item) (rest : list Item) (w : Widget) :
  0 <= first < Z.of_nat (length (index_included w)) ->
  image_loading_busy
    (frame_selector (fst (exec (SliderMoved position (first :: rest)) w))) = false.
Proof.
  intros Hfirst. cbn [exec]. unfold slider_frames_changed, bind at 1 2, modify.
  set (ws := set_slider_frames (setValue position (slider_frames w)) w).
  set (w0 := set_frame_index (value (slider_frames ws) - 1) ws).
  destruct (setPhoto_returns
              (set_slider_frames (setValue (first + 1) (slider_frames w0))
                 (set_frame_index first
                    (set_indices_selected (Some (first :: rest))
                       (set_items_selected (Some (first :: rest)) w0)))) first)
    as (w2 & Hphoto & Hflags & _ & _ & Hindex & _); [simpl; lia|].
  rewrite (bind_ok _ _ w0 w2 tt) by (by rewrite select_items_cons).
  unfold bind, get. apply setPhoto_ends_load.
  rewrite Hindex, Hflags. simpl. lia.
Qed.

(** *** A playback that does not end *)

Lemma slider_moved_slider (position : Z) (first : Item) (rest : list Item) (w : Widget) :
  slider_frames (fst (exec (SliderMoved position (first :: rest)) w)) =
    setValue (first + 1) (setValue position (slider_frames w)).
Proof.
  cbn [exec]. unfold slider_frames_changed, bind at 1 2, modify.
  set (ws := set_slider_frames (setValue position (slider_frames w)) w).
  set (w0 := set_frame_index (value (slider_frames ws) - 1) ws).
  rewrite (bind_keeps_after slider_frames).
  - rewrite select_items_cons. by rewrite (setPhoto_keeps slider_frames).
  - intros _. apply keeps_bind; [apply keeps_get|]. intros index. by apply setPhoto_keeps.
Qed.

Lemma back_at_first_pass (others : list Item) (w : Widget) :
  back_at_first w ->
  let w' := run (pass_with_slots others) w in
  back_at_first w' /\
  frame_index (run [PlayerStep; PlayerStep] w) = 1 /\
  queued_by_step (0 :: others) (run [PlayerStep] w) =
    [SliderMoved 2 (0 :: others); PhotoSignal 1] /\
  set_photo_signal (frame_player w') = set_photo_signal (frame_player w) ++ [1] /\
  sleeps (frame_player w') = S (sleeps (frame_player w)).
Proof.
  intros (Hn & Hlen & Hslider & Hidx & Hat & Hrun & Hbusy).
  unfold pass_with_slots. rewrite !run_cons.
  set (w1 := fst (exec PlayerStep w)).
  set (w2 := fst (exec PlayerStep w1)).
  set (w3 := fst (exec (SliderMoved 2 (0 :: others)) w2)).
  set (w4 := fst (exec (PhotoSignal 1) w3)).
  set (w5 := fst (exec PlayerStep w4)).
  change (run [] w1) with w1. change (run [] w2) with w2. change (run [] w5) with w5.
  cbv zeta.
  assert (w1 = set_frame_player (at_player AtBody (frame_player w)) w) as E1.
  { unfold w1. cbn [exec]. unfold modify, play_step. cbn [fst].
    rewrite Hat, Hidx, Hn, Hrun. reflexivity. }
  assert (frame_index w2 = 1 /\ frames w2 = frames w /\
          index_included w2 = index_included w /\
          slider_frames w2 = mkSlider 1 5 2 /\
          frame_player w2 =
            mkPlayer true AtSleep (elements_disabled (frame_player w))
              (set_photo_signal (frame_player w) ++ [1]) (sleeps (frame_player w)))
    as (Hidx2 & Hfr2 & Hflags2 & Hslider2 & Hplayer2).
  { unfold w2. cbn [exec]. unfold modify, play_step. cbn [fst]. rewrite E1. simpl.
    rewrite Hbusy. simpl. rewrite Hidx, Hrun, Hslider. done. }
  assert (frame_index w3 = 0 /\ frames w3 = frames w2 /\
          index_included w3 = index_included w2 /\
          slider_frames w3 = mkSlider 1 5 1 /\
          frame_player w3 = frame_player w2 /\
          image_loading_busy (frame_selector w3) = false)
    as (Hidx3 & Hfr3 & Hflags3 & Hslider3 & Hplayer3 & Hbusy3).
  { split; [apply slider_moved_first|].
    split; [apply (exec_keeps frames _ session_field_frames)|].
    split; [|split; [|split; [apply (exec_player (SliderMoved 2 (0 :: others)))|]]].
    - apply (slot_keeps index_included (SliderMoved 2 (0 :: others))); done.
    - unfold w3. rewrite slider_moved_slider, Hslider2. reflexivity.
    - apply slider_moved_ends_load. rewrite Hflags2. lia. }
  assert (frame_index w4 = frame_index w3 /\ frames w4 = frames w3 /\
          index_included w4 = index_included w3 /\
          slider_frames w4 = slider_frames w3 /\
          frame_player w4 = frame_player w3 /\
          image_loading_busy (frame_selector w4) = false)
    as (Hidx4 & Hfr4 & Hflags4 & Hslider4 & Hplayer4 & Hbusy4).
  { unfold w4. cbn [exec].
    repeat (split; [by apply setPhoto_keeps|]).
    apply setPhoto_ends_load. rewrite Hflags3, Hflags2. lia. }
  assert (w5 = set_frame_player
                 (mkPlayer true AtTest (elements_disabled (frame_player w))
                    (set_photo_signal (frame_player w) ++ [1])
                    (S (sleeps (frame_player w)))) w4) as E5.
  { unfold w5. cbn [exec]. unfold modify, play_step. cbn [fst].
    rewrite Hplayer4, Hplayer3, Hplayer2. reflexivity. }
  assert (queued_by_step (0 :: others) w1 = [SliderMoved 2 (0 :: others); PhotoSignal 1])
    as Hqueued.
  { rewrite E1. unfold queued_by_step. simpl. rewrite Hbusy, Hslider, Hidx. reflexivity. }
  rewrite E5. unfold back_at_first. simpl.
  rewrite Hfr4, Hfr3, Hfr2, Hflags4, Hflags3, Hflags2, Hslider4, Hslider3, Hidx4, Hidx3,
    Hbusy4.
  done.
Qed.

Lemma back_at_first_passes (others : list Item) (passes : nat) (w : Widget) :
  back_at_first w ->
  let w' := run (concat (repeat (pass_with_slots others) passes)) w in
  back_at_first w' /\
  set_photo_signal (frame_player w') =
    set_photo_signal (frame_player w) ++ repeat 1 passes /\
  sleeps (frame_player w') = (sleeps (frame_player w) + passes)%nat.
Proof.
  revert w. induction passes as [|passes IH]; intros w Hw.
  - simpl. rewrite app_nil_r. split; [done|]. split; [done|lia].
  - cbn [repeat concat]. rewrite run_app.
    destruct (back_at_first_pass others w Hw) as (Hnext & _ & _ & Hsig & Hsl).
    destruct (IH _ Hnext) as (Hlast & Hsigs & Hsls).
    cbv zeta. split; [exact Hlast|].
    rewrite Hsigs, Hsls, Hsig, Hsl, <- app_assoc. split; [reflexivity|lia].
Qed.

Lemma back_at_first_begin : back_at_first (play_begin (selected_0_and_2 widget5)).
Proof.
  unfold back_at_first. repeat split; try (vm_compute; reflexivity).
  vm_compute (length _). lia.
Qed.

(** C7, as the code has it: the widget is opened on five frames, the user
    selects frames 1 and 3 (rows 0 and 2), and [play] is started at index 0,
    never stopped and never held up by a load.  Each advance sets the slider,
    whose [valueChanged] runs [slider_frames_changed] on the GUI thread; that
    slot ends in [select_items], which puts the current index back to the
    first row of the selection, row 0.  So every pass of the loop (the test,
    the body, the slots the body has queued, the sleep) advances to index 1
    and emits 1 again: after any number of passes the thread is at the test
    of the loop with the run flag set and the index at 0, the indices
    emitted are 1, 1, ..., 1, and the next advance is to 1 once more.  The
    index never reaches 2, and the loop does not end. *)
Theorem play_cross_talk_never_ends (others : list Item) (passes : nat) :
  let w := selected_0_and_2 widget5 in
  let w' := run (concat (repeat (pass_with_slots others) passes)) (play_begin w) in
  (Frames.number_original (frames w) = 5 /\
   frame_index w = 0 /\
   at_line (frame_player w) = Stopped /\
   image_loading_busy (frame_selector w) = false) /\
  at_line (frame_player w') = AtTest /\
  run_player (frame_player w') = true /\
  image_loading_busy (frame_selector w') = false /\
  frame_index w' = 0 /\
  set_photo_signal (frame_player w') = repeat 1 passes /\
  sleeps (frame_player w') = passes /\
  frame_index (run [PlayerStep; PlayerStep] w') = 1 /\
  pass_with_slots others =
    [PlayerStep; PlayerStep] ++ queued_by_step (0 :: others) (run [PlayerStep] w') ++
    [PlayerStep].
Proof.
  intros w w'. split; [repeat split; vm_compute; reflexivity|].
  destruct (back_at_first_passes others passes (play_begin w) back_at_first_begin)
    as (Hlast & Hsig & Hsl).
  fold w' in Hlast, Hsig, Hsl.
  destruct (back_at_first_pass others w' Hlast) as (_ & Hnext & Hqueued & _).
  destruct Hlast as (_ & _ & _ & Hidx & Hat & Hrun & Hbusy).
  assert (set_photo_signal (frame_player (play_begin w)) = []) as Hnone
    by (vm_compute; reflexivity).
  assert (sleeps (frame_player (play_begin w)) = 0%nat) as Hzero
    by (vm_compute; reflexivity).
  rewrite Hnone in Hsig. rewrite Hzero in Hsl.
  split; [exact Hat|]. split; [exact Hrun|]. split; [exact Hbusy|].
  split; [exact Hidx|]. split; [exact Hsig|]. split; [exact Hsl|].
  split; [exact Hnext|]. by rewrite Hqueued.
Qed.

(** The first three passes of that playback. *)
Example play_cross_talk_three_passes :
  let w' := run (concat (repeat (pass_with_slots [1]) 3))
              (play_begin (selected_0_and_2 widget5)) in
  set_photo_signal (frame_player w') = [1; 1; 1] /\
  frame_index w' = 0 /\
  at_line (frame_player w') = AtTest.
Proof. vm_compute. done. Qed.

(** *** Stopping *)









(** ** The range of the current index *)












(** * Further properties *)

(** ** Opening the widget *)

Lemma py_index_out_of_range (n : nat) (i : Z) :
  ~ (- Z.of_nat n <= i < Z.of_nat n) -> py_index n i = None.
Proof.
  intros Hi. unfold py_index.
  destruct (Z.leb_spec 0 i), (Z.ltb_spec i (Z.of_nat n)); simpl; try lia;
    destruct (Z.leb_spec (- Z.of_nat n) i), (Z.ltb_spec i 0); simpl; try lia; done.
Qed.

Lemma getitem_out_of_range {A} (l : list A) (i : Z) :
  ~ (- Z.of_nat (length l) <= i < Z.of_nat (length l)) -> getitem l i = Raise IndexError.
Proof. intros Hi. unfold getitem. by rewrite py_index_out_of_range. Qed.

Lemma setPhoto_out_of_range (index : Z) (w : Widget) :
  ~ (- Z.of_nat (length (index_included w)) <= index < Z.of_nat (length (index_included w))) ->
  setPhoto index w =
    (set_frame_selector (mkViewer true (photos (frame_selector w))) w, Raise IndexError).
Proof.
  intros Hindex. unfold setPhoto, FrameViewer_setPhoto, bind, modify, get, lift. simpl.
  by rewrite getitem_out_of_range.
Qed.

(** The loop of lines 123-133 only reads: it returns when every index it
    visits is in the array, and raises at the first that is not. *)
Lemma read_loop_returns (l : list Z) (w : Widget) :
  Forall (fun i => 0 <= i < Z.of_nat (length (index_included w))) l ->
  for_each l (fun i =>
    do flags <- get index_included;
    do _ <- lift (getitem flags i);
    ret tt) w = (w, Ok tt).
Proof.
  induction 1 as [|i l Hi _ IH]; [done|].
  rewrite for_each_cons. unfold bind at 1 2 3, get, lift.
  destruct (lookup_lt_is_Some_2 (index_included w) (Z.to_nat i)) as [b Hb]; [lia|].
  rewrite (getitem_in_range _ _ b) by (done || lia). exact IH.
Qed.

Lemma read_loop_raises (before after : list Z) (i : Z) (w : Widget) :
  Forall (fun i => 0 <= i < Z.of_nat (length (index_included w))) before ->
  ~ (- Z.of_nat (length (index_included w)) <= i < Z.of_nat (length (index_included w))) ->
  for_each (before ++ i :: after) (fun i =>
    do flags <- get index_included;
    do _ <- lift (getitem flags i);
    ret tt) w = (w, Raise IndexError).
Proof.
  intros Hbefore Hi. induction Hbefore as [|j l Hj _ IH].
  - simpl. unfold bind, get, lift. by rewrite getitem_out_of_range.
  - rewrite <- app_comm_cons, for_each_cons. unfold bind at 1 2 3, get, lift.
    destruct (lookup_lt_is_Some_2 (index_included w) (Z.to_nat j)) as [b Hb]; [lia|].
    rewrite (getitem_in_range _ _ b) by (done || lia). exact IH.
Qed.

Lemma c_int_fits (v : Z) : - 2 ^ 31 <= v < 2 ^ 31 -> c_int v = Ok v.
Proof.
  intros Hv. unfold c_int.
  destruct (Z.leb_spec (- 2 ^ 31) v); [|lia].
  destruct (Z.ltb_spec v (2 ^ 31)); [reflexivity|lia].
Qed.

Lemma c_int_overflows (v : Z) : ~ (- 2 ^ 31 <= v < 2 ^ 31) -> c_int v = Raise OverflowError.
Proof.
  intros Hv. unfold c_int.
  destruct (Z.leb_spec (- 2 ^ 31) v), (Z.ltb_spec v (2 ^ 31)); try reflexivity. lia.
Qed.

(** [__init__] up to the first photo: the loop has read the flag of every
    frame, and frame 0 is shown. *)
Lemma init_body_photo parent level fr ui (b : bool) {A} (rest : unit -> M A) :
  Frames.index_included fr !! 0%nat = Some b ->
  Frames.number_original fr <= Z.of_nat (length (Frames.index_included fr)) ->
  (do n <- get (fun w => Frames.number_original (frames w));
   for_each (range n) (fun i =>
     do flags <- get index_included;
     do _ <- lift (getitem flags i);
     ret tt) ;;
   modify (set_frame_index 0) ;;
   do index <- get frame_index;
   bind (setPhoto index) rest) (created parent level fr ui) =
  rest tt
    (mkWidget parent level fr (Frames.index_included fr) None None 0
       (mkViewer false [(0, negb b)]) (mkPlayer false Stopped false [] 0) ui
       [] None [] false).
Proof.
  intros Hfirst Hcovered.
  rewrite (bind_ok _ _ _ _ _ eq_refl).
  rewrite (bind_ok _ _ _ (created parent level fr ui) tt).
  2:{ apply read_loop_returns. apply Forall_seqZ. simpl. lia. }
  rewrite (bind_ok _ _ _ _ _ eq_refl).
  rewrite (bind_ok _ _ _ _ _ eq_refl).
  rewrite (bind_ok _ _ _ _ _
             (setPhoto_in_range (set_frame_index 0 (created parent level fr ui)) 0 b
                ltac:(lia) Hfirst)).
  reflexivity.
Qed.

Lemma init_body_created parent level fr ui (b : bool) :
  Frames.index_included fr !! 0%nat = Some b ->
  Frames.number_original fr <= Z.of_nat (length (Frames.index_included fr)) ->
  - 2 ^ 31 <= Frames.number fr < 2 ^ 31 ->
  init_body (created parent level fr ui) =
    (mkWidget parent level fr (Frames.index_included fr) None None 0
       (mkViewer false [(0, negb b)]) (mkPlayer false Stopped false [] 0)
       (setValue 1 (setMaximum (Frames.number fr) (setMinimum 1 ui)))
       (if 0 <? level then [MsgStart] else []) None [] false, Ok tt).
Proof.
  intros Hfirst Hcovered Hfits. unfold init_body.
  rewrite (init_body_photo _ _ _ _ b _ Hfirst Hcovered).
  unfold bind, modify, get, lift, when, log, ret. cbn [fst frames set_slider_frames].
  rewrite (c_int_fits _ Hfits). simpl.
  by destruct (0 <? level).
Qed.

Lemma init_overflows parent level fr ui :
  1 <= Z.of_nat (length (Frames.index_included fr)) ->
  Frames.number_original fr <= Z.of_nat (length (Frames.index_included fr)) ->
  ~ (- 2 ^ 31 <= Frames.number fr < 2 ^ 31) ->
  init parent level fr ui = Raise OverflowError.
Proof.
  intros Hone Hcovered Hfits.
  destruct (lookup_lt_is_Some_2 (Frames.index_included fr) 0) as [b Hb]; [lia|].
  unfold init, init_body.
  rewrite (init_body_photo _ _ _ _ b _ Hb Hcovered).
  unfold bind, modify, get, lift. cbn [fst frames set_slider_frames].
  by rewrite (c_int_overflows _ Hfits).
Qed.

Lemma init_raises parent level fr ui :
  ~ (1 <= Z.of_nat (length (Frames.index_included fr)) /\
     Frames.number_original fr <= Z.of_nat (length (Frames.index_included fr))) ->
  init parent level fr ui = Raise IndexError.
Proof.
  intros Hnot. unfold init, init_body.
  rewrite (bind_ok _ _ _ _ _ eq_refl).
  set (len := length (Frames.index_included fr)) in *.
  destruct (Z.le_gt_cases (Frames.number_original fr) (Z.of_nat len)) as [Hle|Hgt].
  - (* the loop passes, the first photo cannot be shown *)
    assert (Frames.index_included fr = []) as Hempty.
    { destruct (Frames.index_included fr); [done|]. simpl in len. lia. }
    rewrite (bind_ok _ _ _ (created parent level fr ui) tt).
    2:{ apply read_loop_returns. apply Forall_seqZ. simpl. fold len. lia. }
    rewrite (bind_ok _ _ _ _ _ eq_refl).
    rewrite (bind_ok _ _ _ _ _ eq_refl).
    unfold bind at 1. rewrite setPhoto_out_of_range; [done|].
    simpl. rewrite Hempty. simpl. lia.
  - (* the loop reads past the end of the array *)
    cbn [created frames Frames.number_original]. unfold range.
    replace (Frames.number_original fr)
      with (Z.of_nat len + (Frames.number_original fr - Z.of_nat len)) by lia.
    rewrite seqZ_app, (seqZ_cons (0 + Z.of_nat len)) by lia.
    unfold bind at 1. rewrite read_loop_raises; [done| |simpl; fold len; lia].
    apply Forall_seqZ. simpl. fold len. lia.
Qed.

(** X1: [__init__] on a set with at least one frame.  It returns when the
    flag array has a flag for each of the [number_original] frames and
    [frames.number] fits the C++ [int] of [QSlider.setMaximum]; it raises
    [IndexError], in the loop that fills the list, when the array is shorter
    than [number_original]; and with the array long enough it raises
    [OverflowError] when [frames.number] does not fit.  Whenever it returns,
    the array is not empty, covers the frames, and [frames.number] fits. *)
Theorem init_returns_iff parent level fr ui :
  let len := Z.of_nat (length (Frames.index_included fr)) in
  let fits := - 2 ^ 31 <= Frames.number fr < 2 ^ 31 in
  (1 <= Frames.number_original fr <= len -> fits ->
   exists w, init parent level fr ui = Ok w) /\
  (len < Frames.number_original fr -> init parent level fr ui = Raise IndexError) /\
  (1 <= Frames.number_original fr <= len -> ~ fits ->
   init parent level fr ui = Raise OverflowError) /\
  (forall w, init parent level fr ui = Ok w ->
   1 <= len /\ Frames.number_original fr <= len /\ fits).
Proof.
  intros len fits. split; [|split; [|split]].
  - intros Hcovered Hfits.
    destruct (lookup_lt_is_Some_2 (Frames.index_included fr) 0) as [b Hb]; [lia|].
    eexists. unfold init. by rewrite (init_body_created _ _ _ _ b Hb) by (lia || done).
  - intros Hshort. apply init_raises. fold len. lia.
  - intros Hcovered Hfits. apply init_overflows; fold len; (lia || done).
  - intros w Hinit.
    destruct (decide (1 <= len /\ Frames.number_original fr <= len)) as [[Hone Hle]|Hnot].
    2:{ rewrite (init_raises _ _ _ _ Hnot) in Hinit. discriminate. }
    destruct (decide fits) as [Hfits|Hnot]; [done|].
    rewrite (init_overflows _ _ _ _ Hone Hle Hnot) in Hinit. discriminate.
Qed.

Lemma init_returns_iff_witness :
  (exists w, init true 2 frames4 ui_slider = Ok w) /\
  init true 2 (Frames.mk 3 2 [true; true]) ui_slider = Raise IndexError /\
  init true 2 (Frames.mk 1 (2 ^ 31) [true]) ui_slider = Raise OverflowError /\
  (1 <= Z.of_nat (length (Frames.index_included frames4)) /\
   Frames.number_original frames4 <= Z.of_nat (length (Frames.index_included frames4)) /\
   - 2 ^ 31 <= Frames.number frames4 < 2 ^ 31).
Proof.
  split; [|split; [|split]].
  - apply (init_returns_iff true 2 frames4 ui_slider); unfold frames4; simpl; lia.
  - apply (init_returns_iff true 2 (Frames.mk 3 2 [true; true]) ui_slider). simpl. lia.
  - apply (init_returns_iff true 2 (Frames.mk 1 (2 ^ 31) [true]) ui_slider); simpl; lia.
  - destruct (init_returns_iff true 2 frames4 ui_slider) as (_ & _ & _ & Honly).
    apply (Honly widget4). vm_compute. reflexivity.
Defined.

Lemma init_opens_fields parent level fr ui w :
  init parent level fr ui = Ok w ->
  exists b,
    Frames.index_included fr !! 0%nat = Some b /\
    w = mkWidget parent level fr (Frames.index_included fr) None None 0
          (mkViewer false [(0, negb b)]) (mkPlayer false Stopped false [] 0)
          (setValue 1 (setMaximum (Frames.number fr) (setMinimum 1 ui)))
          (if 0 <? level then [MsgStart] else []) None [] false.
Proof.
  intros Hinit.
  destruct (decide (1 <= Z.of_nat (length (Frames.index_included fr)) /\
                    Frames.number_original fr <= Z.of_nat (length (Frames.index_included fr))))
    as [[Hone Hcovered]|Hnot].
  2:{ rewrite (init_raises _ _ _ _ Hnot) in Hinit. discriminate. }
  destruct (decide (- 2 ^ 31 <= Frames.number fr < 2 ^ 31)) as [Hfits|Hnot].
  2:{ rewrite (init_overflows _ _ _ _ Hone Hcovered Hnot) in Hinit. discriminate. }
  destruct (lookup_lt_is_Some_2 (Frames.index_included fr) 0) as [b Hb]; [lia|].
  unfold init in Hinit. rewrite (init_body_created _ _ _ _ b Hb Hcovered Hfits) in Hinit.
  injection Hinit as <-. by exists b.
Qed.

(** X2: a widget just opened works on a copy of the committed flags, has
    nothing selected, stands at frame 0 and has shown it once, with the
    exclusion mark if frame 0 is excluded; the player is at rest; the protocol
    has its start line if the level is above 0; and with at least one frame
    counted in [number], the slider ranges over [[1, number]] and stands at
    1. *)
Theorem init_opens parent level fr ui w :
  init parent level fr ui = Ok w ->
  parent_gui w = parent /\
  frames w = fr /\
  index_included w = Frames.index_included fr /\
  items_selected w = None /\
  indices_selected w = None /\
  frame_index w = 0 /\
  (exists b, Frames.index_included fr !! 0%nat = Some b /\
     photos (frame_selector w) = [(0, negb b)]) /\
  frame_player w = mkPlayer false Stopped false [] 0 /\
  protocol w = (if 0 <? level then [MsgStart] else []) /\
  signal_finished w = [] /\
  closed w = false /\
  (1 <= Frames.number fr -> slider_configured w /\ value (slider_frames w) = 1).
Proof.
  intros Hinit. destruct (init_opens_fields _ _ _ _ _ Hinit) as (b & Hb & ->). simpl.
  repeat (split; [done|]). split; [by exists b|]. repeat (split; [done|]).
  intros Hnumber. unfold slider_configured, bound. simpl. unfold bound. simpl. lia.
Qed.

Lemma init_opens_witness :
  frame_index widget4 = 0 /\
  photos (frame_selector widget4) = [(0, negb true)] /\
  slider_configured widget4 /\ value (slider_frames widget4) = 1.
Proof.
  destruct (init_opens true 2 frames4 ui_slider widget4)
    as (_ & _ & _ & _ & _ & Hindex & (b & Hb & Hviewer) & _ & _ & _ & _ & Hslider).
  { vm_compute. reflexivity. }
  split; [exact Hindex|].
  split; [|apply Hslider; unfold frames4; simpl; lia].
  injection Hb as <-. exact Hviewer.
Defined.

(** ** The slider and the current index *)






(** ** Sessions and their commit *)

Lemma mark_item_length (flag : bool) (entry : Z * Item) (w : Widget) :
  length (index_included (fst (mark_item flag entry w))) = length (index_included w).
Proof.
  destruct entry as [index item]. unfold mark_item, bind, get, lift, modify.
  destruct (subscript (indices_selected w) index) as [index_selected|e]; [|done].
  destruct (setitem (index_included w) index_selected flag) as [flags'|e] eqn:Hset; [|done].
  simpl. rewrite (setPhoto_keeps index_included) by done. simpl.
  by apply setitem_length in Hset.
Qed.

Lemma exec_keeps_flags (a : action) :
  match a with
  | UseTriggered | NotUseTriggered => True
  | _ => keeps index_included (exec a)
  end.
Proof.
  destruct a as [rows| | | |position rows| | | |busy|index]; try exact I; cbn [exec];
    unfold select_items, key_escape, slider_frames_changed, select_items,
      pushbutton_stop_clicked;
    keeps_steps; try (by apply setPhoto_keeps).
  - by destruct (at_line (frame_player w)).
  - unfold play_step. destruct (at_line (frame_player w)); [done| | |done].
    + by destruct (_ && _).
    + by destruct (negb _).
Qed.

Lemma exec_flags_length (a : action) (w : Widget) :
  length (index_included (fst (exec a w))) = length (index_included w).
Proof.
  assert (forall flag,
            keeps (fun w => length (index_included w)) (mark_selected flag)) as Hmark.
  { intros flag. unfold mark_selected. keeps_steps. intros w1. apply mark_item_length. }
  pose proof (exec_keeps_flags a) as Hkeep.
  destruct a; try apply Hmark; by rewrite Hkeep.
Qed.

Lemma run_sized (actions : list action) (w : Widget) :
  sized (frames w) (index_included w) ->
  sized (frames w) (Frames.index_included (frames w)) ->
  sized (frames (run actions w)) (index_included (run actions w)) /\
  sized (frames (run actions w)) (Frames.index_included (frames (run actions w))).
Proof.
  revert w. induction actions as [|a actions IH]; intros w HW HF; [done|].
  rewrite run_cons. apply IH; unfold sized in *.
  - by rewrite exec_flags_length, (exec_keeps frames a session_field_frames w).
  - by rewrite (exec_keeps frames a session_field_frames w).
Qed.

(** X4: when the widget was opened on a flag array with one flag per frame,
    [done] returns after every session, also one in which slots raised: it
    closes the window and leaves the committed flags equal to the working
    copy. *)
Theorem done_after_any_session parent level fr ui w (actions : list action) :
  sized fr (Frames.index_included fr) ->
  init parent level fr ui = Ok w ->
  let w' := run actions w in
  snd (done w') = Ok tt /\
  Frames.index_included (frames (fst (done w'))) = index_included w' /\
  length (index_included w') = length (Frames.index_included fr) /\
  closed (fst (done w')) = true.
Proof.
  intros Hsized Hinit w'.
  destruct (init_opens_fields _ _ _ _ _ Hinit) as (b & _ & Hw).
  assert (sized (frames w) (index_included w) /\
          sized (frames w) (Frames.index_included (frames w))) as [HW HF].
  { rewrite Hw. simpl. done. }
  destruct (run_sized actions w HW HF) as [HW' HF']. fold w' in HW', HF'.
  destruct (done_writes_working w' HW' HF') as [Hok Hflags].
  split; [exact Hok|]. split; [exact Hflags|]. split.
  - unfold sized in *. subst w'.
    rewrite (run_keeps frames) in HW' by apply session_field_frames.
    assert (frames w = fr) as Hfr by (by rewrite Hw).
    rewrite Hfr in HW'. lia.
  - destruct (done_changes_sized w' HW' HF') as (w1 & Hchanges & _).
    by destruct (done_after_changes w' w1 _ Hchanges) as (_ & _ & Hclosed).
Qed.

Lemma done_after_any_session_witness :
  let w' := run [ItemClicked []; UseTriggered; ItemClicked [9]; ItemClicked [1];
                 NotUseTriggered] widget4 in
  snd (done w') = Ok tt /\
  Frames.index_included (frames (fst (done w'))) = index_included w' /\
  length (index_included w') = length (Frames.index_included frames4) /\
  closed (fst (done w')) = true.
Proof.
  apply (done_after_any_session true 2 frames4 ui_slider widget4);
    vm_compute; reflexivity.
Defined.

(** ** What [done] reports *)

Lemma done_changes_keeps {X} (f : Widget -> X) :
  (forall v w, f (set_frames v w) = f w) -> keeps f done_changes.
Proof.
  intros Hf. unfold done_changes, done_step, write_committed. keeps_steps; apply Hf.
Qed.

(** After the loop: what [done] appends to the protocol and what it emits. *)
Lemma done_reports (w w1 : Widget) (included excluded : list Z) :
  done_changes w = (w1, Ok (included, excluded)) ->
  protocol (fst (done w)) =
    protocol w ++
    (if 1 <? protocol_level w then
       (if nonempty included
        then [MsgIncluded (map (fun item => item + 1) included)] else []) ++
       (if nonempty excluded
        then [MsgExcluded (map (fun item => item + 1) excluded)] else []) ++
       (if negb (py_sum (Frames.index_included (frames w1)) =? Frames.number (frames w1))
        then [MsgRemaining (py_sum (Frames.index_included (frames w1)))] else [])
     else []) /\
  signal_finished (fst (done w)) =
    signal_finished w ++
    (if parent_gui w then [nonempty included || nonempty excluded] else []).
Proof.
  intros Hchanges.
  pose proof (keeps_result protocol _ _ _ _ Hchanges
                (done_changes_keeps protocol ltac:(done))) as Hprotocol.
  pose proof (keeps_result protocol_level _ _ _ _ Hchanges
                (done_changes_keeps protocol_level ltac:(done))) as Hlevel.
  pose proof (keeps_result signal_finished _ _ _ _ Hchanges
                (done_changes_keeps signal_finished ltac:(done))) as Hsignal.
  pose proof (keeps_result parent_gui _ _ _ _ Hchanges
                (done_changes_keeps parent_gui ltac:(done))) as Hparent.
  rewrite <- Hprotocol, <- Hlevel, <- Hsignal, <- Hparent.
  unfold done. rewrite !(bind_ok _ _ _ _ _ Hchanges).
  destruct (1 <? protocol_level w1) eqn:Hl, (nonempty included) eqn:Hi,
    (nonempty excluded) eqn:He, (parent_gui w1) eqn:Hp,
    (negb (py_sum (Frames.index_included (frames w1)) =? Frames.number (frames w1))) eqn:Hr;
    unfold bind, get, when, log, emit_finished, modify, ret;
    repeat (cbn; rewrite ?Hl, ?Hi, ?He, ?Hp, ?Hr);
    rewrite ?app_nil_r, <- ?app_assoc; done.
Qed.

Lemma nonempty_filter_false (p : Z -> bool) (l : list Z) :
  nonempty (List.filter p l) = false <-> forall i, i ∈ l -> p i = false.
Proof.
  split.
  - intros Hempty i Hi. destruct (p i) eqn:Hp; [|done].
    assert (In i (List.filter p l)) as Hin.
    { apply filter_In. split; [by apply list_elem_of_In|done]. }
    destruct (List.filter p l); [done|discriminate].
  - intros Hall. destruct (List.filter p l) as [|i rest] eqn:Hfilter; [done|].
    assert (In i (List.filter p l)) as Hin by (rewrite Hfilter; left; done).
    apply filter_In in Hin as [Hin Hp].
    rewrite (Hall i) in Hp; [discriminate|by apply list_elem_of_In].
Qed.

(** No flag went either way exactly when the two arrays are equal. *)
Lemma no_changes_iff (a b : list bool) (n : Z) :
  Z.of_nat (length a) = n -> Z.of_nat (length b) = n ->
  nonempty (List.filter (flipped a b) (range n)) ||
  nonempty (List.filter (flipped b a) (range n)) = false <-> a = b.
Proof.
  intros Ha Hb. rewrite orb_false_iff, !nonempty_filter_false. split.
  - intros [Hab Hba]. apply list_eq. intros k.
    destruct (decide (k < length a)%nat) as [Hlt|Hge].
    + specialize (Hab (Z.of_nat k)). specialize (Hba (Z.of_nat k)).
      unfold range, flipped in *. rewrite elem_of_seqZ, Nat2Z.id in *.
      destruct (lookup_lt_is_Some_2 a k) as [x Hx]; [lia|].
      destruct (lookup_lt_is_Some_2 b k) as [y Hy]; [lia|].
      rewrite Hx, Hy in *.
      destruct x, y; try done; (by discriminate Hab; lia) || (by discriminate Hba; lia).
    + by rewrite !lookup_ge_None_2 by lia.
  - intros <-. unfold flipped.
    split; intros i _; by destruct (a !! Z.to_nat i) as [[]|].
Qed.

(** X5: when [done] returns, it has emitted [signal_finished] once if the
    widget has a parent and not at all otherwise; the payload says whether the
    working copy differed from the committed flags in at least one frame. *)
Theorem done_signals_change (w : Widget) :
  sized (frames w) (index_included w) ->
  sized (frames w) (Frames.index_included (frames w)) ->
  signal_finished (fst (done w)) =
    signal_finished w ++
    (if parent_gui w
     then [negb (bool_decide (index_included w = Frames.index_included (frames w)))]
     else []).
Proof.
  intros HW HF.
  destruct (done_changes_sized w HW HF) as (w1 & Hchanges & _).
  destruct (done_reports w w1 _ _ Hchanges) as [_ ->].
  f_equal. destruct (parent_gui w); [|done]. f_equal.
  pose proof (no_changes_iff (index_included w) (Frames.index_included (frames w))
                (Frames.number_original (frames w)) HW HF) as Hiff.
  destruct (_ || _).
  - rewrite bool_decide_false; [done|]. intros Heq. apply Hiff in Heq. discriminate.
  - rewrite bool_decide_true; [done|]. by apply Hiff.
Qed.

Lemma done_signals_change_witness :
  signal_finished (fst (done widget4)) = [false] /\
  signal_finished (fst (done (run [ItemClicked [2]; UseTriggered] widget4))) = [true] /\
  signal_finished (fst (done (run [ItemClicked [2]; UseTriggered] widget5))) = [].
Proof.
  split; [|split].
  - rewrite (done_signals_change widget4) by (vm_compute; reflexivity).
    vm_compute. reflexivity.
  - rewrite (done_signals_change (run [ItemClicked [2]; UseTriggered] widget4))
      by (vm_compute; reflexivity).
    vm_compute. reflexivity.
  - rewrite (done_signals_change (run [ItemClicked [2]; UseTriggered] widget5))
      by (vm_compute; reflexivity).
    vm_compute. reflexivity.
Defined.

(** X6: what [done] writes to the protocol.  At a level of 1 or below,
    nothing.  Above, in this order: the frames included, if any, and the
    frames excluded, if any, by their numbers counted from 1 and ascending;
    and the count of frames now included, if it differs from
    [frames.number]. *)
Theorem done_protocol (w : Widget) :
  sized (frames w) (index_included w) ->
  sized (frames w) (Frames.index_included (frames w)) ->
  let working := index_included w in
  let committed := Frames.index_included (frames w) in
  let n := Frames.number_original (frames w) in
  let included := List.filter (flipped working committed) (range n) in
  let excluded := List.filter (flipped committed working) (range n) in
  protocol (fst (done w)) =
    protocol w ++
    (if 1 <? protocol_level w then
       (if nonempty included
        then [MsgIncluded (map (fun item => item + 1) included)] else []) ++
       (if nonempty excluded
        then [MsgExcluded (map (fun item => item + 1) excluded)] else []) ++
       (if negb (py_sum working =? Frames.number (frames w))
        then [MsgRemaining (py_sum working)] else [])
     else []).
Proof.
  intros HW HF working committed n included excluded.
  destruct (done_changes_sized w HW HF) as (w1 & Hchanges & _ & Hfr).
  destruct (done_reports w w1 _ _ Hchanges) as [-> _].
  by rewrite Hfr.
Qed.

Lemma done_protocol_witness :
  protocol (fst (done (run [ItemClicked [2; 0]; UseTriggered; ItemClicked [1; 3];
                            NotUseTriggered] widget4)))
  = [MsgStart; MsgIncluded [3]; MsgExcluded [2; 4]; MsgRemaining 2] /\
  protocol (fst (done (run [ItemClicked [2]; UseTriggered] widget5))) = [].
Proof.
  split.
  - rewrite (done_protocol (run [ItemClicked [2; 0]; UseTriggered; ItemClicked [1; 3];
                                 NotUseTriggered] widget4))
      by (vm_compute; reflexivity).
    vm_compute. reflexivity.
  - rewrite (done_protocol (run [ItemClicked [2]; UseTriggered] widget5))
      by (vm_compute; reflexivity).
    vm_compute. reflexivity.
Defined.

(** ** Marking, once more *)

Lemma mark_selected_spec_twice (first second : bool) (s : SelectionState) :
  mark_selected_spec second (mark_selected_spec first s) = mark_selected_spec second s.
Proof.
  unfold mark_selected_spec. cbn [working_inclusion selected_indices]. f_equal.
  apply list_eq. intros i. rewrite !list_lookup_imap.
  destruct (working_inclusion s !! i); cbn [fmap option_fmap option_map]; [|done].
  by case_decide.
Qed.

(** X7: on the same selection the last of two markings decides: including
    and then excluding the selected frames leaves the flags that excluding
    alone leaves, and so for every pair of [use_triggered] and
    [not_use_triggered]; in particular each of them, done twice, does what it
    does once. *)
Theorem marking_last_wins (w : Widget) (first second : bool) :
  editing w ->
  let marking flag := if flag : bool then UseTriggered else NotUseTriggered in
  index_included (run [marking first; marking second] w) =
  index_included (run [marking second] w).
Proof.
  intros Hed marking.
  assert (forall actions,
            forallb (edit_action (Frames.number_original (frames w))) actions = true ->
            index_included (run actions w) =
              working_inclusion (replay actions (selection_of w))) as Hreplay.
  { intros actions Hvalid. by destruct (run_editing actions w Hed Hvalid) as [_ <-]. }
  rewrite !Hreplay by (by destruct first, second).
  destruct first, second; unfold replay; simpl fold_left;
    unfold include_selected_spec, exclude_selected_spec;
    by rewrite mark_selected_spec_twice.
Qed.

Lemma marking_last_wins_witness :
  let w := run [ItemClicked [2; 0]] widget4 in
  index_included (run [UseTriggered; NotUseTriggered] w) =
  index_included (run [NotUseTriggered] w).
Proof.
  apply (marking_last_wins (run [ItemClicked [2; 0]] widget4) true false).
  repeat split; by vm_compute.
Defined.

(** ** The photo after a marking *)

Lemma mark_item_photo (flag : bool) (w : Widget) (item : Item)
    (pre rest : list Z) (r : Z) :
  indices_selected w = Some (pre ++ r :: rest) ->
  0 <= r < Z.of_nat (length (index_included w)) ->
  0 <= frame_index w < Z.of_nat (length (index_included w)) ->
  exists w' shown,
    mark_item flag (Z.of_nat (length pre), item) w = (w', Ok tt) /\
    index_included w' !! Z.to_nat (frame_index w) = Some shown /\
    photos (frame_selector w') =
      photos (frame_selector w) ++ [(frame_index w, negb shown)].
Proof.
  intros Hsel Hr Hcur. unfold mark_item, bind, get, lift, modify.
  rewrite Hsel. simpl. rewrite getitem_app_middle.
  rewrite setitem_in_range by done. simpl.
  set (w1 := set_index_included _ w).
  destruct (lookup_lt_is_Some_2 (index_included w1) (Z.to_nat (frame_index w)))
    as [shown Hshown].
  { unfold w1. simpl. rewrite length_insert. lia. }
  rewrite (setPhoto_in_range w1 (frame_index w) shown) by (lia || done).
  eexists. exists shown. split; [reflexivity|]. split; [exact Hshown|done].
Qed.

Lemma mark_loop_photos (flag : bool) (rest pre : list Z) (items : list Item) (w : Widget) :
  length items = length rest ->
  indices_selected w = Some (pre ++ rest) ->
  Forall (fun r => 0 <= r < Z.of_nat (length (index_included w))) rest ->
  0 <= frame_index w < Z.of_nat (length (index_included w)) ->
  exists w',
    for_each (enumerate_from (Z.of_nat (length pre)) items) (mark_item flag) w = (w', Ok tt) /\
    length (photos (frame_selector w')) =
      (length (photos (frame_selector w)) + length rest)%nat /\
    (rest <> [] ->
     exists shown,
       index_included w' !! Z.to_nat (frame_index w) = Some shown /\
       last (photos (frame_selector w')) = Some (frame_index w, negb shown)).
Proof.
  revert pre items w. induction rest as [|r rest IH]; intros pre items w Hlen Hsel Hrows Hcur.
  - destruct items; [|discriminate]. exists w. simpl.
    split; [done|]. split; [lia|done].
  - destruct items as [|item items]; [discriminate|].
    apply Forall_cons in Hrows as [Hr Hrows].
    destruct (mark_item_photo flag w item pre rest r Hsel Hr Hcur)
      as (w1 & shown & Hstep & Hshown & Hphotos).
    destruct (mark_item_in_range flag w item pre rest r Hsel Hr Hcur)
      as (w1' & Hstep' & Hflags & _ & Hindices & Hindex & _).
    rewrite Hstep in Hstep'. injection Hstep' as <-.
    destruct (IH (pre ++ [r]) items w1) as (w' & Hloop & Hcount & Hlast).
    + simpl in Hlen. lia.
    + by rewrite Hindices, Hsel, <- app_assoc.
    + by rewrite Hflags, length_insert.
    + rewrite Hflags, length_insert, Hindex. lia.
    + exists w'. rewrite enumerate_from_cons, for_each_cons.
      unfold bind at 1. rewrite Hstep.
      rewrite length_app in Hloop. simpl in Hloop.
      replace (Z.of_nat (length pre) + 1) with (Z.of_nat (length pre + 1)) by lia.
      split; [exact Hloop|]. split.
      * rewrite Hcount, Hphotos, length_app. simpl. lia.
      * intros _. destruct rest as [|r' rest].
        -- destruct items; [|discriminate]. simpl in Hloop. injection Hloop as <-.
           exists shown. split; [done|]. by rewrite Hphotos, last_snoc.
        -- rewrite Hindex in Hlast. by apply Hlast.
Qed.

(** X8: [use_triggered] and [not_use_triggered] show the current frame anew
    after each selected item, so that when they return the photo shown last
    is the current frame with the exclusion mark its flag has then: a marking
    that covers the current frame is seen at once. *)
Theorem marking_reloads_photo (w : Widget) (flag : bool) :
  editing w ->
  truthy (items_selected w) = true ->
  exists w' shown,
    mark_selected flag w = (w', Ok tt) /\
    index_included w' !! Z.to_nat (frame_index w) = Some shown /\
    last (photos (frame_selector w')) = Some (frame_index w, negb shown) /\
    length (photos (frame_selector w')) =
      (length (photos (frame_selector w)) + length (default [] (indices_selected w)))%nat /\
    (frame_index w ∈ default [] (indices_selected w) -> shown = flag).
Proof.
  intros Hed Htruthy. pose proof (editing_rows w Hed) as Hrows.
  pose proof Hed as (Hsized & Hpair & Hvalid & Hcur).
  unfold sized, index_in_range in *.
  destruct (items_selected w) as [[|item items]|] eqn:Hitems; try discriminate.
  rewrite <- Hpair in *. simpl default in *.
  destruct (mark_loop_photos flag (item :: items) [] (item :: items) w)
    as (w' & Hloop & Hcount & Hlast); [done|done|done|lia|].
  destruct Hlast as (shown & Hshown & Hlast); [done|].
  destruct (mark_selected_editing flag w Hed) as (w'' & Hmark & Hspec & _).
  assert (mark_selected flag w = (w', Ok tt)) as Hmark'.
  { unfold mark_selected, bind, get, when. rewrite Hitems. exact Hloop. }
  rewrite Hmark' in Hmark. injection Hmark as <-.
  exists w', shown. split; [done|]. split; [done|]. split; [done|]. split; [done|].
  intros Hin.
  assert (index_included w' = working_inclusion (selection_of w')) as Hflags by done.
  rewrite Hspec in Hflags. unfold selection_of, mark_selected_spec in Hflags.
  rewrite <- Hpair in Hflags. simpl in Hflags.
  rewrite Hflags, list_lookup_imap in Hshown.
  destruct (index_included w !! Z.to_nat (frame_index w)) as [b|]; [|discriminate].
  simpl in Hshown. rewrite Z2Nat.id in Hshown by lia.
  rewrite decide_True in Hshown by done. by injection Hshown.
Qed.

Lemma marking_reloads_photo_witness :
  let w := run [ItemClicked [0; 2]] widget4 in
  exists w' shown,
    mark_selected false w = (w', Ok tt) /\
    index_included w' !! Z.to_nat (frame_index w) = Some shown /\
    last (photos (frame_selector w')) = Some (frame_index w, negb shown) /\
    length (photos (frame_selector w')) =
      (length (photos (frame_selector w)) + length (default [] (indices_selected w)))%nat /\
    (frame_index w ∈ default [] (indices_selected w) -> shown = false).
Proof.
  apply (marking_reloads_photo (run [ItemClicked [0; 2]] widget4) false).
  - repeat split; by vm_compute.
  - vm_compute. reflexivity.
Defined.

(** ** Moving the slider *)

(** X10: [slider_frames_changed] takes the index from the slider and then
    calls [select_items], which takes it from the selection.  With rows
    selected, the slot returns with the current index at the first selected
    row, whatever the slider said, the slider set to match, and that frame
    shown twice; with nothing selected it raises [IndexError], the current
    index being the slider's value less one. *)
Theorem slider_move_ends_at_selection (w : Widget) (position : Z) (rows : list Item) :
  editing w ->
  valid_rows (Frames.number_original (frames w)) rows = true ->
  let result := exec (SliderMoved position rows) w in
  match rows with
  | [] =>
      snd result = Raise IndexError /\
      frame_index (fst result) = bound (slider_frames w) position - 1 /\
      value (slider_frames (fst result)) = bound (slider_frames w) position /\
      indices_selected (fst result) = Some []
  | first :: _ =>
      snd result = Ok tt /\
      frame_index (fst result) = first /\
      value (slider_frames (fst result)) = bound (slider_frames w) (first + 1) /\
      indices_selected (fst result) = Some rows /\
      exists included,
        index_included w !! Z.to_nat first = Some included /\
        photos (frame_selector (fst result)) =
          photos (frame_selector w) ++ [(first, negb included); (first, negb included)]
  end.
Proof.
  intros Hed Hvalid result.
  set (ws := set_slider_frames (setValue position (slider_frames w)) w).
  set (w0 := set_frame_index (value (slider_frames ws) - 1) ws).
  assert (result =
          bind (select_items rows)
            (fun _ => bind (get frame_index) (fun index => setPhoto index)) w0) as ->
    by reflexivity.
  destruct rows as [|first rest].
  - unfold bind. rewrite select_items_nil. simpl. done.
  - apply valid_rows_spec, Forall_cons in Hvalid as [Hfirst _].
    destruct Hed as (Hsized & _). unfold sized in Hsized.
    destruct (lookup_lt_is_Some_2 (index_included w) (Z.to_nat first)) as [b Hb]; [lia|].
    set (w1 := set_slider_frames (setValue (first + 1) (slider_frames w0))
                 (set_frame_index first
                    (set_indices_selected (Some (first :: rest))
                       (set_items_selected (Some (first :: rest)) w0)))).
    pose proof (setPhoto_in_range w1 first b ltac:(lia) Hb) as Hphoto1.
    set (w2 := set_frame_selector _ _) in Hphoto1.
    pose proof (setPhoto_in_range w2 first b ltac:(lia) Hb) as Hphoto2.
    set (w3 := set_frame_selector _ _) in Hphoto2.
    assert (bind (select_items (first :: rest))
              (fun _ => bind (get frame_index) (fun index => setPhoto index)) w0
            = (w3, Ok tt)) as ->.
    { rewrite (bind_ok _ _ w0 w2 tt (eq_trans (select_items_cons first rest w0) Hphoto1)).
      exact Hphoto2. }
    simpl. repeat (split; [done|]). exists b. split; [done|].
    by rewrite <- app_assoc.
Qed.

Lemma slider_move_ends_at_selection_witness :
  let result := exec (SliderMoved 3 [1; 2]) widget4 in
  snd result = Ok tt /\
  frame_index (fst result) = 1 /\
  value (slider_frames (fst result)) = bound (slider_frames widget4) (1 + 1) /\
  indices_selected (fst result) = Some [1; 2] /\
  exists included,
    index_included widget4 !! Z.to_nat 1 = Some included /\
    photos (frame_selector (fst result)) =
      photos (frame_selector widget4) ++ [(1, negb included); (1, negb included)].
Proof.
  apply (slider_move_ends_at_selection widget4 3 [1; 2]).
  - exact editing_widget4.
  - vm_compute. reflexivity.
Defined.

(** ** The playback loop, in general *)









(** The playback of the witness: frames 3 and 4 are shown after frame 2. *)
Example play_to_the_end_example :
  let w := run [ItemClicked [1]] widget4 in
  let events := [PlayerStep; PlayerStep; SliderMoved 3 [2]; PhotoSignal 2; PlayerStep;
                 PlayerStep; PlayerStep; PhotoSignal 3; PlayerStep; PlayerStep] in
  set_photo_signal (frame_player (run events (play_begin w))) = [2; 3] /\
  frame_index (run events (play_begin w)) = 3.
Proof. vm_compute. done. Qed.

Lemma paced_same (w0 w w' : Widget) :
  frame_player w' = frame_player w -> paced w0 w -> paced w0 w'.
Proof. unfold paced. by intros ->. Qed.

Lemma paced_event (w0 : Widget) (a : action) (w : Widget) :
  paced w0 w -> paced w0 (fst (exec a w)).
Proof.
  intros Hw. pose proof (exec_player a w) as Hplayer.
  destruct a; try (by apply (paced_same w0 w)); cbn [exec];
    destruct Hw as (Hsl & emitted & Hsig & Hlen); unfold paced, modify; cbn [fst].
  - (* the stop button *)
    simpl. split; [done|]. by exists emitted.
  - (* a new call of [play] *)
    destruct (at_line (frame_player w)) eqn:Hline;
      try (split; [done|]; exists emitted; by rewrite Hline).
    simpl. split; [done|]. exists emitted. split; [done|lia].
  - (* a step of the thread *)
    unfold play_step. destruct (at_line (frame_player w)) eqn:Hline.
    + split; [done|]. exists emitted. by rewrite Hline.
    + destruct (_ && _); simpl; (split; [done|]); exists emitted; (split; [done|lia]).
    + destruct (negb _); simpl; (split; [done|]).
      * exists (emitted ++ [frame_index w + 1]).
        rewrite Hsig, length_app, <- app_assoc. split; [done|]. simpl. lia.
      * exists emitted. split; [done|lia].
    + simpl. split; [lia|]. exists emitted. split; [done|lia].
Qed.

(** X12: the loop of [play] keeps its pace.  Between any two states of a
    session, whatever happens in between on either thread, what the loop had
    emitted stays emitted, and the loop emits at most one index more than it
    makes [sleep(0.1)] calls: a playback shows at most one new frame for
    each tenth of a second. *)
Theorem play_keeps_pace (w : Widget) (events : list action) :
  let w' := run events w in
  (sleeps (frame_player w) <= sleeps (frame_player w'))%nat /\
  exists emitted,
    set_photo_signal (frame_player w') = set_photo_signal (frame_player w) ++ emitted /\
    (length emitted <= sleeps (frame_player w') - sleeps (frame_player w) + 1)%nat.
Proof.
  intros w'.
  assert (paced w w') as (Hsl & emitted & Hsig & Hlen).
  { apply (run_invariant (paced w) (fun _ => true)).
    - intros a w1 _. apply paced_event.
    - by apply forallb_forall.
    - unfold paced. split; [done|]. exists []. rewrite app_nil_r. split; [done|].
      simpl. destruct (at_line (frame_player w)); lia. }
  split; [exact Hsl|]. exists emitted. split; [exact Hsig|].
  destruct (at_line (frame_player w')); lia.
Qed.

Lemma following_event (w0 : Widget) (a : action) (w : Widget) :
  playback_event a = true -> following w0 w -> following w0 (fst (exec a w)).
Proof.
  unfold following. intros Ha (Hj & Hsig & Hsl & Hat).
  destruct a; try discriminate; cbn [exec].
  - (* the stop button *)
    simpl. repeat (split; [done|]).
    destruct (at_line (frame_player w)); tauto.
  - (* a step of the thread *)
    unfold modify, play_step. cbn [fst].
    destruct (at_line (frame_player w)) eqn:Hline.
    + rewrite Hline. done.
    + destruct (_ && _); simpl; repeat split; tauto || lia.
    + destruct (negb _); simpl.
      * split; [lia|]. split; [|split; [done|split; [lia|tauto]]].
        rewrite Hsig, <- app_assoc. f_equal.
        replace (frame_index w + 1 - frame_index w0)
          with (frame_index w - frame_index w0 + 1) by lia.
        rewrite seqZ_snoc by lia. do 2 f_equal. lia.
      * repeat split; tauto || lia.
    + simpl. repeat split; tauto || lia.
  - (* the busy flag *)
    simpl. done.
Qed.

Lemma following_begin (w : Widget) : following w (play_begin w).
Proof.
  unfold following. simpl. rewrite Z.sub_diag, seqZ_nil, app_nil_r by lia.
  repeat split; done || lia.
Qed.

(** X13: the list and the two buttons are blocked and disabled exactly
    while the thread is inside the loop of [play]: from the start of [play]
    until the loop is left, under any events; and when the loop is left, the
    run flag is clear. *)
Theorem elements_disabled_while_playing (w : Widget) (events : list action) :
  forallb playback_event events = true ->
  let w' := run events (play_begin w) in
  (elements_disabled (frame_player w') = true <-> at_line (frame_player w') <> Stopped) /\
  (at_line (frame_player w') = Stopped -> run_player (frame_player w') = false).
Proof.
  intros Hev w'.
  pose proof (run_invariant (following w) playback_event (following_event w)
                events (play_begin w) Hev (following_begin w)) as Hfollowing.
  fold w' in Hfollowing. destruct Hfollowing as (_ & _ & _ & Hat).
  destruct (at_line (frame_player w')).
  - destruct Hat as (_ & Hdis & Hrun). rewrite Hdis.
    split; [|done]. split; [discriminate|]. intros Hne. by destruct Hne.
  - destruct Hat as (_ & Hdis). rewrite Hdis.
    split; [|discriminate]. split; [discriminate|done].
  - destruct Hat as (_ & Hdis). rewrite Hdis.
    split; [|discriminate]. split; [discriminate|done].
  - destruct Hat as (_ & Hdis). rewrite Hdis.
    split; [|discriminate]. split; [discriminate|done].
Qed.

Lemma elements_disabled_while_playing_witness :
  let w' := run [PlayerStep; PlayerStep; StopClicked] (play_begin widget5) in
  (elements_disabled (frame_player w') = true <-> at_line (frame_player w') <> Stopped) /\
  (at_line (frame_player w') = Stopped -> run_player (frame_player w') = false).
Proof.
  apply (elements_disabled_while_playing widget5). reflexivity.
Defined.

Lemma held_step (w0 : Widget) (a : action) (w : Widget) :
  held_event a = true -> held w0 w ->
  held w0 (fst (exec a w)) /\
  (3 * sleeps (frame_player (fst (exec a w))) + pass_position (fst (exec a w)) =
   3 * sleeps (frame_player w) + pass_position w +
   (if is_player_step a then 1 else 0))%nat.
Proof.
  unfold held, pass_position.
  intros Ha (Hbusy & Hrun & Hat & Hfr & Hidx & Hlast & Hsig & Hval).
  destruct a as [| | | | | | | |[]|]; try discriminate; cbn [exec is_player_step].
  - unfold modify, play_step. cbn [fst].
    destruct (at_line (frame_player w)) eqn:Hline; [done| | |].
    + rewrite Hrun, andb_true_r.
      destruct (Z.ltb_spec (frame_index w) (Frames.number_original (frames w) - 1)); [|lia].
      simpl. split; [|lia]. repeat split; done.
    + rewrite Hbusy. simpl. split; [|lia]. repeat split; done.
    + simpl. split; [|lia]. repeat split; done.
  - simpl. split; [|lia]. repeat split; done.
Qed.

Lemma held_run (w0 : Widget) (actions : list action) (w : Widget) :
  forallb held_event actions = true -> held w0 w ->
  held w0 (run actions w) /\
  (3 * sleeps (frame_player (run actions w)) + pass_position (run actions w) =
   3 * sleeps (frame_player w) + pass_position w + player_steps actions)%nat.
Proof.
  revert w. induction actions as [|a actions IH]; intros w Hev Hw.
  - simpl. split; [done|]. unfold player_steps. simpl. lia.
  - simpl in Hev. apply andb_true_iff in Hev as [Ha Hev].
    destruct (held_step w0 a w Ha Hw) as [Hnext Hcount].
    destruct (IH _ Hev Hnext) as [Hheld Hsteps].
    rewrite run_cons, player_steps_cons. split; [done|].
    rewrite Hsteps, Hcount. destruct (is_player_step a); lia.
Qed.

(** X14: [play] has no way out of a load that does not end.  Started below
    the last frame while the viewer is busy, and for as long as the viewer
    stays busy and the stop button is not clicked, the loop goes round
    without advancing, emitting or moving the slider, and does not end; it
    makes one [sleep] for every three steps of its thread. *)
Theorem play_waits_while_busy (w : Widget) (events : list action) :
  image_loading_busy (frame_selector w) = true ->
  frame_index w < Frames.number_original (frames w) - 1 ->
  forallb held_event events = true ->
  let w' := run events (play_begin w) in
  let passes := (sleeps (frame_player w') - sleeps (frame_player w))%nat in
  at_line (frame_player w') <> Stopped /\
  run_player (frame_player w') = true /\
  frame_index w' = frame_index w /\
  set_photo_signal (frame_player w') = set_photo_signal (frame_player w) /\
  value (slider_frames w') = value (slider_frames w) /\
  (3 * passes <= player_steps events < 3 * passes + 3)%nat.
Proof.
  intros Hbusy Hidx Hev w' passes.
  destruct (held_run w events (play_begin w) Hev) as [Hheld Hsteps].
  { unfold held. simpl. repeat split; done. }
  fold w' in Hheld, Hsteps.
  destruct Hheld as (_ & Hrun & Hat & _ & Hsame & _ & Hsig & Hval).
  repeat (split; [done|]).
  subst passes. unfold pass_position in Hsteps. simpl in Hsteps.
  destruct (at_line (frame_player w')); lia.
Qed.

Lemma play_waits_while_busy_witness :
  let w := fst (exec (ImageLoading true) widget5) in
  let events := repeat PlayerStep 10 in
  let w' := run events (play_begin w) in
  let passes := (sleeps (frame_player w') - sleeps (frame_player w))%nat in
  at_line (frame_player w') <> Stopped /\
  run_player (frame_player w') = true /\
  frame_index w' = frame_index w /\
  set_photo_signal (frame_player w') = set_photo_signal (frame_player w) /\
  value (slider_frames w') = value (slider_frames w) /\
  (3 * passes <= player_steps events < 3 * passes + 3)%nat.
Proof.
  apply (play_waits_while_busy (fst (exec (ImageLoading true) widget5))
           (repeat PlayerStep 10)).
  - vm_compute. reflexivity.
  - vm_compute. reflexivity.
  - reflexivity.
Defined.

(** ** Escape, and cancelling *)

(** X15: after the [Escape] key the selection is empty, not [None]: in
    whatever state the widget is, the key leaves flags, index and photos
    alone, and a [+] or [-] key, button or menu entry after it does nothing at
    all, until items are selected again. *)
Theorem escape_disarms_marking (w : Widget) (flag : bool) :
  let w1 := fst (exec KeyEscape w) in
  snd (exec KeyEscape w) = Ok tt /\
  items_selected w1 = Some [] /\
  indices_selected w1 = Some [] /\
  index_included w1 = index_included w /\
  frame_index w1 = frame_index w /\
  frame_selector w1 = frame_selector w /\
  exec (if flag then UseTriggered else NotUseTriggered) w1 = (w1, Ok tt).
Proof.
  simpl. repeat (split; [done|]).
  destruct flag; cbn [exec]; by apply mark_selected_nothing.
Qed.

(** X16: [reject] never emits [signal_finished].  After any session, a
    widget without parent is closed by it and nothing is emitted; a widget
    with a parent stays open, [reject] raising before it emits. *)
Theorem reject_never_emits parent level fr ui w (actions : list action) :
  init parent level fr ui = Ok w ->
  let w' := run actions w in
  signal_finished (fst (reject w')) = [] /\
  closed (fst (reject w')) = negb parent /\
  snd (reject w') = (if parent then Raise AttributeError else Ok tt).
Proof.
  intros Hinit w'.
  assert (parent_gui w' = parent) as Hparent.
  { subst w'. rewrite (run_keeps parent_gui) by apply session_field_parent_gui.
    by from_init parent_gui Hinit. }
  assert (signal_payload w' = None) as Hattr.
  { subst w'. rewrite (run_keeps signal_payload) by apply session_field_signal_payload.
    by from_init signal_payload Hinit. }
  assert (signal_finished w' = []) as Hsignal.
  { subst w'. rewrite (run_keeps signal_finished) by apply session_field_signal_finished.
    by from_init signal_finished Hinit. }
  assert (closed w' = false) as Hclosed.
  { subst w'. rewrite (run_keeps closed) by apply session_field_closed.
    by from_init closed Hinit. }
  destruct parent.
  - rewrite (reject_without_payload w' Hparent Hattr). simpl. done.
  - unfold reject, bind, get, when, modify, ret. rewrite Hparent. simpl. done.
Qed.

Lemma reject_never_emits_witness :
  let w' := run [ItemClicked [2]; UseTriggered] widget5 in
  signal_finished (fst (reject w')) = [] /\
  closed (fst (reject w')) = negb false /\
  snd (reject w') = Ok tt.
Proof.
  apply (reject_never_emits false 0 frames5 ui_slider widget5). vm_compute. reflexivity.
Defined.
